(** * pybetfair: the session manager of [betfair.py]

    A shallow embedding of class [Betfair] (login, keep-alive probe, the
    background keep-alive thread and the JSON-RPC convenience calls) together
    with the properties of its authentication and session-liveness core.

    Python objects are embedded as follows.
    - The instance [self] is a record; methods are computations in a state
      and exception monad over the whole system (the instance, the threads it
      started, and the simulated outside world).
    - [requests.post] talks to a scripted world: every call records the
      request it was given and consumes the next scripted reply.
    - Parsed JSON is a Python value; dictionaries are finite maps.
    - Library functions whose code is not part of the repository
      ([base64.b64decode] followed by [.decode("ascii")], the builtin
      [float]) are section variables. *)

From Stdlib Require Import ZArith String Ascii List Lia.
From Stdlib Require Import Floats.SpecFloat.
From stdpp Require Import gmap strings list fin_maps.

Set Warnings "-register-all".

Local Open Scope string_scope.
Local Open Scope list_scope.
Local Open Scope Z_scope.

(** ** Python values and exceptions *)

(** What [json.loads] can produce, which is also what the instance fields and
    header values can hold. *)
Inductive pyval : Type :=
| PNone
| PBool (b : bool)
| PInt (z : Z)
| PFloat (f : spec_float)
| PStr (s : string)
| PList (l : list pyval)
| PDict (d : gmap string pyval).

(** The exceptions that the modelled code can raise or let through. *)
Inductive exn : Type :=
| BetfairException (args : list pyval)
| KeyError (key : pyval)
| IndexError
| TypeError
| ValueError
| OverflowError
| BinasciiError
| UnicodeDecodeError
| RequestException.

Inductive outcome (A : Type) : Type :=
| Return (a : A)
| Raise (e : exn).
Arguments Return {A} a.
Arguments Raise {A} e.

(** [isinstance(e, BetfairException)] on the exception of an outcome. *)
Definition raised_BetfairException {A} (o : outcome A) : bool :=
  match o with Raise (BetfairException _) => true | _ => false end.

(** [v == s] for a string literal [s]. *)
Definition py_eq_str (v : pyval) (s : string) : bool :=
  match v with
  | PStr t => bool_decide (t = s)
  | _ => false
  end.

(** [v[k]] for a string key [k]. *)
Definition subscript (v : pyval) (k : string) : outcome pyval :=
  match v with
  | PDict d =>
      match d !! k with
      | Some x => Return x
      | None => Raise (KeyError (PStr k))
      end
  | _ => Raise TypeError
  end.

Definition char_at (s : string) (i : nat) : option pyval :=
  match String.get i s with
  | Some c => Some (PStr (String c EmptyString))
  | None => None
  end.

(** [v[0]]. A JSON object has string keys only, so [0] is never a key. *)
Definition subscript0 (v : pyval) : outcome pyval :=
  match v with
  | PList l =>
      match l !! 0%nat with
      | Some x => Return x
      | None => Raise IndexError
      end
  | PStr s =>
      match char_at s 0 with
      | Some x => Return x
      | None => Raise IndexError
      end
  | PDict _ => Raise (KeyError (PInt 0))
  | _ => Raise TypeError
  end.

Fixpoint chars (s : string) : list pyval :=
  match s with
  | EmptyString => []
  | String c s' => PStr (String c EmptyString) :: chars s'
  end.

(** The items a [for] clause draws from [v]. A dictionary yields its keys;
    their order plays no role below, since every use subscripts the key by a
    string and so raises on the first one. *)
Definition py_iter (v : pyval) : outcome (list pyval) :=
  match v with
  | PList l => Return l
  | PStr s => Return (chars s)
  | PDict d => Return (PStr <$> (map_to_list d).*1)
  | _ => Raise TypeError
  end.

Fixpoint is_prefix (p s : string) : bool :=
  match p, s with
  | EmptyString, _ => true
  | String a p', String b s' => bool_decide (a = b) && is_prefix p' s'
  | String _ _, EmptyString => false
  end.

Fixpoint is_substring (p s : string) : bool :=
  is_prefix p s ||
  match s with
  | EmptyString => false
  | String _ s' => is_substring p s'
  end.

(** [needle in v] for a string literal [needle]. *)
Definition py_contains (needle : string) (v : pyval) : outcome bool :=
  match v with
  | PStr s => Return (is_substring needle s)
  | PList l => Return (existsb (fun x => py_eq_str x needle) l)
  | PDict d => Return (bool_decide (is_Some (d !! needle)))
  | _ => Raise TypeError
  end.

(** ['sep'.join(items)]. *)
Fixpoint join (sep : string) (items : list string) : string :=
  match items with
  | [] => ""
  | [x] => x
  | x :: rest => x +:+ sep +:+ join sep rest
  end.

(** [template % args] for templates whose only conversion is [%s] and
    arguments that are strings. *)
Fixpoint percent_format (template : string) (args : list string) : outcome string :=
  match template with
  | EmptyString =>
      match args with
      | [] => Return ""
      | _ :: _ => Raise TypeError
      end
  | String "%" (String "s" rest) =>
      match args with
      | a :: args' =>
          match percent_format rest args' with
          | Return r => Return (a +:+ r)
          | Raise e => Raise e
          end
      | [] => Raise TypeError
      end
  | String c rest =>
      match percent_format rest args with
      | Return r => Return (String c r)
      | Raise e => Raise e
      end
  end.

(** Rocq string literals below write an apostrophe where the Python literal
    has a double quote; [jq] puts the double quotes back. None of the source
    literals contains an apostrophe. *)
Fixpoint jq (s : string) : string :=
  match s with
  | EmptyString => EmptyString
  | String c s' => String (if bool_decide (c = "'"%char) then "034"%char else c) (jq s')
  end.

(** ** The simulated world: HTTP, clock, log *)

Inductive http_verb : Type := GET | POST.

(** What the code hands to [requests]: verb, URL, [data=], [headers=] and
    [cert=]. *)
Record request : Type := mkRequest {
  verb : http_verb;
  url : string;
  data : string;
  headers : gmap string pyval;
  cert : option (string * string)
}.

(** A [requests.Response]: [status_code], and what [.json()] parses the body
    to ([None] when the body is not JSON). *)
Record response : Type := mkResponse {
  status_code : Z;
  body : option pyval
}.

(** One scripted reaction of the network to a request: an answer, or
    [requests] raising (connection failure, rejected header, ...). *)
Inductive http_reply : Type :=
| Answer (r : response)
| Fails.

Inductive level : Type := INFO | WARNING | ERROR | CRITICAL.

(** A log call: level, message template and the values formatted into it. *)
Record log_record : Type := mkLog {
  lvl : level;
  msg : string;
  fmt_args : list pyval
}.

(** ** The instance and its threads *)

(** The attributes set by [__init__]. [alive_thread] is [self.__alive_thread]:
    [None] or the thread object, identified by its position among the threads
    created so far. *)
Record Betfair : Type := mkBetfair {
  app_key : string;
  login_status : pyval;
  session_token : pyval;
  alive_thread : option nat;
  alive_refresh_sec : Z
}.

(** Control state of a thread whose target is [__keep_alive_thread]. *)
Inductive thread_state : Type :=
| Unstarted                (* constructed, [start()] not yet called *)
| Started                  (* [start()] called, target about to be entered *)
| LoopHead                 (* at [while True:], about to call [keep_alive] *)
| Sleeping (wake : Z)      (* inside [time.sleep], until the clock reaches [wake] *)
| Terminated (e : exn).    (* the target raised [e]; the thread is dead *)

(** [Thread.is_alive()]. *)
Definition is_alive (t : thread_state) : bool :=
  match t with
  | Started | LoopHead | Sleeping _ => true
  | Unstarted | Terminated _ => false
  end.

Record system : Type := mkSystem {
  self : Betfair;
  threads : list thread_state;
  now : Z;
  replies : list http_reply;
  sent : list (Z * request);
  journal : list log_record
}.

Definition with_self (f : Betfair -> Betfair) (st : system) : system :=
  mkSystem (f (self st)) (threads st) (now st) (replies st) (sent st) (journal st).

Definition with_threads (f : list thread_state -> list thread_state) (st : system) : system :=
  mkSystem (self st) (f (threads st)) (now st) (replies st) (sent st) (journal st).

(** The keep-alive threads that are currently running. *)
Definition active_tasks (st : system) : nat :=
  length (filter (fun t => is_alive t = true) (threads st)).

(** Requests sent to [u] so far, oldest first, with the time of sending. *)
Definition sent_to (u : string) (st : system) : list (Z * request) :=
  filter (fun tr => url tr.2 = u) (sent st).

(** ** State and exception monad *)

Definition M (A : Type) : Type := system -> outcome A * system.

Definition ret {A} (a : A) : M A := fun st => (Return a, st).

Definition raise {A} (e : exn) : M A := fun st => (Raise e, st).

Definition bind {A B} (m : M A) (k : A -> M B) : M B :=
  fun st =>
    match m st with
    | (Return a, st') => k a st'
    | (Raise e, st') => (Raise e, st')
    end.

Notation "x <- m ;; k" := (bind m (fun x => k))
  (at level 100, m at next level, right associativity).
Notation "m ;; k" := (bind m (fun _ => k))
  (at level 100, right associativity).

(** A pure computation that may raise. *)
Definition lift {A} (o : outcome A) : M A := fun st => (o, st).

Definition get_self : M Betfair := fun st => (Return (self st), st).

Definition set_login_status (v : pyval) : M unit :=
  fun st => (Return tt,
    with_self (fun b => mkBetfair (app_key b) v (session_token b)
                                  (alive_thread b) (alive_refresh_sec b)) st).

Definition set_session_token (v : pyval) : M unit :=
  fun st => (Return tt,
    with_self (fun b => mkBetfair (app_key b) (login_status b) v
                                  (alive_thread b) (alive_refresh_sec b)) st).

Definition set_alive_thread (t : option nat) : M unit :=
  fun st => (Return tt,
    with_self (fun b => mkBetfair (app_key b) (login_status b) (session_token b)
                                  t (alive_refresh_sec b)) st).

(** [log.<level>(msg.format(args))]. *)
Definition log (l : level) (m : string) (args : list pyval) : M unit :=
  fun st => (Return tt,
    mkSystem (self st) (threads st) (now st) (replies st) (sent st)
             (journal st ++ [mkLog l m args])).

(** [requests.post(url, data=data, headers=headers, cert=cert)]: the request
    is recorded with the current time, and the next scripted reply decides
    whether a response comes back. With no reply left the call fails like an
    unreachable host. *)
Definition requests_post (u d : string) (h : gmap string pyval)
    (c : option (string * string)) : M response :=
  fun st =>
    let out := sent st ++ [(now st, mkRequest POST u d h c)] in
    match replies st with
    | Answer r :: rest =>
        (Return r, mkSystem (self st) (threads st) (now st) rest out (journal st))
    | Fails :: rest =>
        (Raise RequestException,
         mkSystem (self st) (threads st) (now st) rest out (journal st))
    | [] =>
        (Raise RequestException,
         mkSystem (self st) (threads st) (now st) [] out (journal st))
    end.

(** [resp.json()]. *)
Definition json (r : response) : outcome pyval :=
  match body r with
  | Some v => Return v
  | None => Raise ValueError
  end.

(** [threading.Thread(target=self.__keep_alive_thread, daemon=True)]: a new
    thread object, not yet running. *)
Definition Thread_new : M nat :=
  fun st => (Return (length (threads st)),
             with_threads (fun ts => ts ++ [Unstarted]) st).

(** [t.start()]; starting a thread twice is a [RuntimeError] in Python, which
    the code never does: each thread object is started once, right after its
    construction. *)
Definition Thread_start (t : nat) : M unit :=
  fun st => (Return tt, with_threads (fun ts => <[t := Started]> ts) st).

(** ** class Betfair *)

Definition betting_url : string := "https://api.betfair.com/exchange/betting/json-rpc/v1".
Definition accounts_url : string := "https://api.betfair.com/exchange/account/json-rpc/v1".
Definition certlogin_url : string := "https://identitysso.betfair.com/api/certlogin".
Definition keepAlive_url : string := "https://identitysso.betfair.com/api/keepAlive".

(** [__init__(self, app_key, alive_refresh_sec=7200)]. *)
Definition default_alive_refresh_sec : Z := 7200.

Definition init (app_key : string) (alive_refresh_sec : Z) : Betfair :=
  mkBetfair app_key (PStr "") (PStr "") None alive_refresh_sec.

(** A just constructed manager in a world at time [t0] whose network will
    react as scripted in [script]. *)
Definition boot (b : Betfair) (t0 : Z) (script : list http_reply) : system :=
  mkSystem b [] t0 script [] [].

(** [__call_aping(self, jsonrpc_req, url)]. *)
Definition call_aping (jsonrpc_req u : string) : M pyval :=
  b <- get_self ;;
  let headers : gmap string pyval :=
    {[ "X-Application" := PStr (app_key b);
       "X-Authentication" := session_token b;
       "content-type" := PStr "application/json" ]} in
  resp <- requests_post u jsonrpc_req headers None ;;
  lift (json resp).

(** [keep_alive(self)]. *)
Definition keep_alive : M unit :=
  b <- get_self ;;
  let headers : gmap string pyval :=
    {[ "Accept" := PStr "application/json";
       "X-Application" := PStr (app_key b);
       "X-Authentication" := session_token b ]} in
  resp <- requests_post keepAlive_url "" headers None ;;
  if status_code resp =? 200 then
    resp_json <- lift (json resp) ;;
    status <- lift (subscript resp_json "status") ;;
    if py_eq_str status "FAIL" then
      raise (BetfairException [PStr "keepAlive:status"; PStr "FAIL"])
    else
      error <- lift (subscript resp_json "error") ;;
      if negb (py_eq_str error "") then
        error' <- lift (subscript resp_json "error") ;;
        raise (BetfairException [PStr "keepAlive:error"; error'])
      else ret tt
  else
    raise (BetfairException [PStr "keepAlive"; PStr "Unknown error"]).

Section Library.

(** [base64.b64decode(s).decode("ascii")]: the decoded text, or the exception
    of either step. *)
Variable b64decode_ascii : string -> outcome string.

(** The builtin [float(v)]. *)
Variable float : pyval -> outcome pyval.

(** [login(self, username, password)]. *)
Definition login (username password : string) : M unit :=
  u <- lift (b64decode_ascii username) ;;
  p <- lift (b64decode_ascii password) ;;
  let payload := "username=" +:+ u +:+ "&password=" +:+ p in
  let headers : gmap string pyval :=
    {[ "X-Application" := PStr "SomeKey";
       "Content-Type" := PStr "application/x-www-form-urlencoded" ]} in
  resp <- requests_post certlogin_url payload headers
            (Some ("client-2048.crt", "client-2048.key")) ;;
  (if status_code resp =? 200 then
     resp_json <- lift (json resp) ;;
     status <- lift (subscript resp_json "loginStatus") ;;
     (if py_eq_str status "INVALID_USERNAME_OR_PASSWORD" then
        log ERROR "Login failed - invalid username or password" [] ;;
        raise (BetfairException
                 [PStr "login:loginStatus"; PStr "INVALID_USERNAME_OR_PASSWORD"])
      else ret tt) ;;
     status' <- lift (subscript resp_json "loginStatus") ;;
     set_login_status status' ;;
     token <- lift (subscript resp_json "sessionToken") ;;
     set_session_token token
   else
     log CRITICAL "Login failed - unknown error" [] ;;
     raise (BetfairException [PStr "login"; PStr "Unknown error"])) ;;
  b <- get_self ;;
  log INFO "Login status: {}" [login_status b] ;;
  log INFO "Session token: {}" [session_token b] ;;
  log INFO "Starting keep alive thread" [] ;;
  t <- Thread_new ;;
  set_alive_thread (Some t) ;;
  Thread_start t.

(** *** The JSON-RPC convenience calls *)

Definition account_req : string :=
  jq "{'jsonrpc': '2.0', 'method': 'AccountAPING/v1.0/getAccountFunds', 'params': {'wallet':'UK'}, 'id': 1}".

Definition football_req : string :=
  jq "{'jsonrpc': '2.0', 'method': 'SportsAPING/v1.0/listCompetitions', 'params': {'filter':{'eventTypeIds':['1']}}, 'id': 1}".

Definition football_ids_template : string :=
  jq "{'jsonrpc': '2.0', 'method': 'SportsAPING/v1.0/listEvents', 'params': {'filter': {'competitionIds':['%s']}}, 'id': 1}".

Definition event_template : string :=
  jq "{'jsonrpc': '2.0', 'method': 'SportsAPING/v1.0/listEvents', 'params': {'filter': {'marketIds': [%s]}}, 'id': 1}".

Definition market_template : string :=
  jq "{'jsonrpc': '2.0', 'method': 'SportsAPING/v1.0/listMarketCatalogue', 'params': {'filter': {'eventIds': ['%s'], 'marketTypeCodes': ['%s']}, 'maxResults': '1'}, 'id': 1}".

Definition game_desc_template : string :=
  jq "{'jsonrpc': '2.0', 'method': 'SportsAPING/v1.0/listMarketCatalogue', 'params': {'filter': {'marketIds': [%s]}, 'maxResults': '1', 'marketProjection': ['RUNNER_DESCRIPTION']}, 'id': 1}".

Definition market_data_template : string :=
  jq "{'jsonrpc': '2.0', 'method': 'SportsAPING/v1.0/listMarketBook', 'params': {'marketIds':[%s],'priceProjection':{'priceData':['EX_BEST_OFFERS'],'virtualise':'true'},'orderProjection':'EXECUTABLE','matchProjection':'ROLLED_UP_BY_AVG_PRICE'}, 'id': 1}".

(** [[f(i) for i in items if cond(i)]]: per item the condition first, then
    the element; the first exception ends the comprehension. *)
Fixpoint comprehension (f : pyval -> outcome pyval) (cond : pyval -> outcome bool)
    (items : list pyval) : outcome (list pyval) :=
  match items with
  | [] => Return []
  | i :: rest =>
      match cond i with
      | Raise e => Raise e
      | Return true =>
          match f i with
          | Raise e => Raise e
          | Return x =>
              match comprehension f cond rest with
              | Raise e => Raise e
              | Return xs => Return (x :: xs)
              end
          end
      | Return false => comprehension f cond rest
      end
  end.

(** [get_gbp_funds(self)]. *)
Definition get_gbp_funds : M pyval :=
  account_response <- call_aping account_req accounts_url ;;
  result <- lift (subscript account_response "result") ;;
  balance <- lift (subscript result "availableToBetBalance") ;;
  lift (float balance).

(** [get_football_competitions(self)]. *)
Definition get_football_competitions : M pyval :=
  footballResponse <- call_aping football_req betting_url ;;
  result <- lift (subscript footballResponse "result") ;;
  items <- lift (py_iter result) ;;
  competitions <- lift (comprehension (fun i => subscript i "competition")
                                      (fun _ => Return true) items) ;;
  ret (PList competitions).

(** [get_football_games(self, football_competition_id)]. *)
Definition get_football_games (football_competition_id : string) : M pyval :=
  football_ids_req <- lift (percent_format football_ids_template [football_competition_id]) ;;
  football_ids_response <- call_aping football_ids_req betting_url ;;
  result <- lift (subscript football_ids_response "result") ;;
  items <- lift (py_iter result) ;;
  games <- lift (comprehension
                   (fun i => subscript i "event")
                   (fun i => match subscript i "event" with
                             | Raise e => Raise e
                             | Return ev =>
                                 match subscript ev "name" with
                                 | Raise e => Raise e
                                 | Return name => py_contains " v " name
                                 end
                             end)
                   items) ;;
  ret (PList games).

(** [get_events_data(self, *market_ids)]. *)
Definition get_events_data (market_ids : list string) : M pyval :=
  event_req <- lift (percent_format event_template [join "," market_ids]) ;;
  call_aping event_req betting_url.

(** [get_market_catalogue(self, event_id, market_type_code)]. *)
Definition get_market_catalogue (event_id market_type_code : string) : M pyval :=
  market_req <- lift (percent_format market_template [event_id; market_type_code]) ;;
  market_response <- call_aping market_req betting_url ;;
  result <- lift (subscript market_response "result") ;;
  lift (subscript0 result).

(** [get_football_game_description(self, market_id)]. *)
Definition get_football_game_description (market_id : string) : M pyval :=
  game_desc_req <- lift (percent_format game_desc_template [market_id]) ;;
  call_aping game_desc_req betting_url.

(** [get_market_data(self, *market_ids)]. *)
Definition get_market_data (market_ids : list string) : M pyval :=
  market_data_req <- lift (percent_format market_data_template [join "," market_ids]) ;;
  call_aping market_data_req betting_url.

(** The public JSON-RPC methods with their arguments. *)
Inductive rpc_call : Type :=
| GetGbpFunds
| GetFootballCompetitions
| GetFootballGames (football_competition_id : string)
| GetEventsData (market_ids : list string)
| GetMarketCatalogue (event_id market_type_code : string)
| GetFootballGameDescription (market_id : string)
| GetMarketData (market_ids : list string).

Definition invoke (c : rpc_call) : M pyval :=
  match c with
  | GetGbpFunds => get_gbp_funds
  | GetFootballCompetitions => get_football_competitions
  | GetFootballGames i => get_football_games i
  | GetEventsData ids => get_events_data ids
  | GetMarketCatalogue e m => get_market_catalogue e m
  | GetFootballGameDescription m => get_football_game_description m
  | GetMarketData ids => get_market_data ids
  end.

(** *** The background thread *)

Definition set_thread (t : nat) (s : thread_state) (st : system) : system :=
  with_threads (fun ts => <[t := s]> ts) st.

(** [__keep_alive_thread(self)], run by thread [t], one step at a time. The
    steps are: entering the target (the first log line); one turn of the
    [while True:] body up to and including the call of [time.sleep]; and
    waking up once the clock has reached the wake-up time. An exception
    raised in the body leaves the loop and the target, which ends the thread;
    [time.sleep] raises [ValueError] for a negative length. *)
Definition thread_step (t : nat) (st : system) : system :=
  match threads st !! t with
  | Some Started =>
      let st1 := (log INFO "Keep alive thread started and set to {0:d} seconds"
                      [PInt (alive_refresh_sec (self st))] st).2 in
      set_thread t LoopHead st1
  | Some LoopHead =>
      match (keep_alive ;; log INFO "Keeping alive ..." []) st with
      | (Return _, st1) =>
          let secs := alive_refresh_sec (self st1) in
          if secs <? 0 then set_thread t (Terminated ValueError) st1
          else set_thread t (Sleeping (now st1 + secs)) st1
      | (Raise e, st1) => set_thread t (Terminated e) st1
      end
  | Some (Sleeping wake) =>
      if wake <=? now st then set_thread t LoopHead st else st
  | Some Unstarted | Some (Terminated _) | None => st
  end.

(** [d] seconds pass. *)
Definition tick (d : Z) (st : system) : system :=
  mkSystem (self st) (threads st) (now st + Z.max 0 d) (replies st) (sent st)
           (journal st).

(** What can happen to a manager: the foreground thread calls a method, the
    scheduler lets a background thread take its next step, or time passes. *)
Inductive action : Type :=
| Login (username password : string)
| KeepAlive
| Call (c : rpc_call)
| Run (t : nat)
| Tick (d : Z).

Definition exec (a : action) (st : system) : system :=
  match a with
  | Login u p => (login u p st).2
  | KeepAlive => (keep_alive st).2
  | Call c => (invoke c st).2
  | Run t => thread_step t st
  | Tick d => tick d st
  end.

Definition run (l : list action) (st : system) : system :=
  fold_left (fun s a => exec a s) l st.

End Library.

(** [n] calls of [keep_alive] in a row; the outcomes, oldest first. *)
Fixpoint probes (n : nat) (st : system) : list (outcome unit) * system :=
  match n with
  | O => ([], st)
  | S n' =>
      let (o, st1) := keep_alive st in
      let (os, st2) := probes n' st1 in
      (o :: os, st2)
  end.

(** ** Concrete library functions

    One instance of each library variable, used to run the model on concrete
    inputs. The decoder is RFC 4648 base64 with the standard alphabet, four
    characters at a time, followed by the ASCII check of [.decode("ascii")]. *)

Definition b64_digit (c : ascii) : option N :=
  let n := N_of_ascii c in
  (if (65 <=? n) && (n <=? 90) then Some (n - 65)
   else if (97 <=? n) && (n <=? 122) then Some (n - 71)
   else if (48 <=? n) && (n <=? 57) then Some (n + 4)
   else if n =? 43 then Some 62
   else if n =? 47 then Some 63
   else None)%N.

Definition byte_of (n : N) : ascii := ascii_of_N (n mod 256).

Fixpoint b64_quads (fuel : nat) (s : string) : outcome string :=
  match fuel with
  | O => Raise BinasciiError
  | S fuel' =>
      match s with
      | EmptyString => Return EmptyString
      | String a (String b (String c (String d rest))) =>
          match b64_digit a, b64_digit b with
          | Some x, Some y =>
              let b1 := byte_of (x * 4 + y / 16) in
              match b64_digit c, b64_digit d with
              | Some z, Some w =>
                  match b64_quads fuel' rest with
                  | Return r =>
                      Return (String b1 (String (byte_of (y * 16 + z / 4))
                                (String (byte_of (z * 64 + w)) r)))
                  | Raise e => Raise e
                  end
              | Some z, None =>
                  if bool_decide (d = "="%char) && bool_decide (rest = EmptyString)
                  then Return (String b1 (String (byte_of (y * 16 + z / 4)) EmptyString))
                  else Raise BinasciiError
              | None, _ =>
                  if bool_decide (c = "="%char) && bool_decide (d = "="%char)
                     && bool_decide (rest = EmptyString)
                  then Return (String b1 EmptyString)
                  else Raise BinasciiError
              end
          | _, _ => Raise BinasciiError
          end
      | _ => Raise BinasciiError
      end
  end%N.

Fixpoint all_ascii (s : string) : bool :=
  match s with
  | EmptyString => true
  | String c s' => (N_of_ascii c <? 128)%N && all_ascii s'
  end.

Definition rfc4648_decode_ascii (s : string) : outcome string :=
  match b64_quads (S (String.length s)) s with
  | Return t => if all_ascii t then Return t else Raise UnicodeDecodeError
  | Raise e => Raise e
  end.

(** [float] without the parsing of text: a float is returned as it is, an
    integer or boolean is rounded to binary64, and every string is rejected
    the way a non-numeric one is. *)
Definition float_of_number (v : pyval) : outcome pyval :=
  match v with
  | PFloat f => Return (PFloat f)
  | PInt z =>
      match binary_normalize 53 1024 z 0 false with
      | S754_infinity _ => Raise OverflowError
      | f => Return (PFloat f)
      end
  | PBool b => Return (PFloat (binary_normalize 53 1024 (if b then 1 else 0) 0 false))
  | PStr _ => Raise ValueError
  | PNone | PList _ | PDict _ => Raise TypeError
  end.

(** ** Vocabulary of the properties *)

(** The request [login] hands to [requests.post]. *)
Definition login_request (u p : string) : request :=
  mkRequest POST certlogin_url ("username=" +:+ u +:+ "&password=" +:+ p)
    {[ "X-Application" := PStr "SomeKey";
       "Content-Type" := PStr "application/x-www-form-urlencoded" ]}
    (Some ("client-2048.crt", "client-2048.key")).

(** A scripted answer of the identity endpoint that accepts the login. *)
Definition login_accepted (status token : pyval) : http_reply :=
  Answer (mkResponse 200 (Some (PDict
    {[ "loginStatus" := status; "sessionToken" := token ]}))).

(** The request [keep_alive] hands to [requests.post]. *)
Definition keep_alive_request (b : Betfair) : request :=
  mkRequest POST keepAlive_url ""
    {[ "Accept" := PStr "application/json";
       "X-Application" := PStr (app_key b);
       "X-Authentication" := session_token b ]}
    None.

(** The outcome of [keep_alive] as a function of the answer. *)
Definition keep_alive_verdict (r : response) : outcome unit :=
  if status_code r =? 200 then
    match json r with
    | Raise e => Raise e
    | Return v =>
        match subscript v "status" with
        | Raise e => Raise e
        | Return s =>
            if py_eq_str s "FAIL" then
              Raise (BetfairException [PStr "keepAlive:status"; PStr "FAIL"])
            else
              match subscript v "error" with
              | Raise e => Raise e
              | Return er =>
                  if py_eq_str er "" then Return tt
                  else Raise (BetfairException [PStr "keepAlive:error"; er])
              end
        end
    end
  else Raise (BetfairException [PStr "keepAlive"; PStr "Unknown error"]).

(** An answer of the keep-alive endpoint that reports a live session: HTTP
    200, a status other than FAIL and an empty error. *)
Definition healthy (reply : http_reply) : bool :=
  match reply with
  | Answer r =>
      (status_code r =? 200) &&
      match body r with
      | Some (PDict d) =>
          match d !! "status", d !! "error" with
          | Some s, Some e => negb (py_eq_str s "FAIL") && py_eq_str e ""
          | _, _ => false
          end
      | _ => false
      end
  | Fails => false
  end.

(** The actions that only probe or wait: a direct [keep_alive] call, a step
    of a keep-alive thread, the passing of time. *)
Definition probing (a : action) : bool :=
  match a with
  | KeepAlive | Run _ | Tick _ => true
  | Login _ _ | Call _ => false
  end.

(** A session whose first background probe is answered with status FAIL
    while a healthy answer is waiting behind it. *)
Definition answer_fail : http_reply :=
  Answer (mkResponse 200 (Some (PDict
    {[ "status" := PStr "FAIL"; "error" := PStr "" ]}))).

Definition answer_alive : http_reply :=
  Answer (mkResponse 200 (Some (PDict
    {[ "status" := PStr "SUCCESS"; "error" := PStr "" ]}))).

(** The endpoint, method name and params text of each JSON-RPC method, and
    the JSON-RPC 2.0 envelope around them, as the text that is sent. *)
Definition rpc_url (c : rpc_call) : string :=
  match c with
  | GetGbpFunds => accounts_url
  | _ => betting_url
  end.

Definition rpc_method (c : rpc_call) : string :=
  match c with
  | GetGbpFunds => "AccountAPING/v1.0/getAccountFunds"
  | GetFootballCompetitions => "SportsAPING/v1.0/listCompetitions"
  | GetFootballGames _ | GetEventsData _ => "SportsAPING/v1.0/listEvents"
  | GetMarketCatalogue _ _ | GetFootballGameDescription _ =>
      "SportsAPING/v1.0/listMarketCatalogue"
  | GetMarketData _ => "SportsAPING/v1.0/listMarketBook"
  end.

Definition rpc_params (c : rpc_call) : string :=
  match c with
  | GetGbpFunds => jq "{'wallet':'UK'}"
  | GetFootballCompetitions => jq "{'filter':{'eventTypeIds':['1']}}"
  | GetFootballGames i =>
      jq "{'filter': {'competitionIds':['" +:+ i +:+ jq "']}}"
  | GetEventsData ids =>
      jq "{'filter': {'marketIds': [" +:+ join "," ids +:+ "]}}"
  | GetMarketCatalogue e m =>
      jq "{'filter': {'eventIds': ['" +:+ e +:+ jq "'], 'marketTypeCodes': ['"
        +:+ m +:+ jq "']}, 'maxResults': '1'}"
  | GetFootballGameDescription m =>
      jq "{'filter': {'marketIds': [" +:+ m
        +:+ jq "]}, 'maxResults': '1', 'marketProjection': ['RUNNER_DESCRIPTION']}"
  | GetMarketData ids =>
      jq "{'marketIds':[" +:+ join "," ids
        +:+ jq "],'priceProjection':{'priceData':['EX_BEST_OFFERS'],'virtualise':'true'},'orderProjection':'EXECUTABLE','matchProjection':'ROLLED_UP_BY_AVG_PRICE'}"
  end.

Definition envelope (method params : string) : string :=
  jq "{'jsonrpc': '2.0', 'method': '" +:+ method +:+ jq "', 'params': "
    +:+ params +:+ jq ", 'id': 1}".

(** The headers [__call_aping] builds for instance [b]. *)
Definition aping_headers (b : Betfair) : gmap string pyval :=
  {[ "X-Application" := PStr (app_key b);
     "X-Authentication" := session_token b;
     "content-type" := PStr "application/json" ]}.

(** One round of a keep-alive thread that is scheduled without delay: the
    turn of the loop body, the sleep of [alive_refresh_sec] seconds, the
    wake-up; and [n] rounds in a row. *)
Definition round (t : nat) (st : system) : system :=
  thread_step t (tick (alive_refresh_sec (self st)) (thread_step t st)).

Fixpoint rounds (t : nat) (n : nat) (st : system) : system :=
  match n with
  | O => st
  | S n' => rounds t n' (round t st)
  end.

(** The number of login calls among some actions. *)
Definition is_login (a : action) : bool :=
  match a with
  | Login _ _ => true
  | _ => false
  end.

Fixpoint logins (l : list action) : nat :=
  match l with
  | [] => O
  | a :: l' => ((if is_login a then 1 else 0) + logins l')%nat
  end.

(** The thread handle of the instance and the threads agree: there is no
    handle and no thread, or the handle is the thread created last; and
    every thread that exists has been started. *)
Definition handle_ok (st : system) : Prop :=
  match alive_thread (self st) with
  | None => threads st = []
  | Some i => length (threads st) = S i
  end /\
  Forall (fun t => t <> Unstarted) (threads st).

(** The JSON-RPC methods that take the result member out of the reply; the
    others return the parsed reply as it is. *)
Definition unwraps_result (c : rpc_call) : bool :=
  match c with
  | GetGbpFunds | GetFootballCompetitions | GetFootballGames _
  | GetMarketCatalogue _ _ => true
  | GetEventsData _ | GetFootballGameDescription _ | GetMarketData _ => false
  end.

(** ** JSON text

    What makes a request body a JSON text (RFC 8259), to say when the text a
    method sends is a JSON-RPC envelope. A lexer turns the characters into
    tokens and a pushdown recogniser turns the tokens into a value. Strings
    keep their text as written (escapes are checked, not decoded) and numbers
    keep their literal. *)

Inductive jvalue : Type :=
| JNull
| JTrue
| JFalse
| JNumber (literal : string)
| JString (text : string)
| JArray (elements : list jvalue)
| JObject (members : list (string * jvalue)).

Inductive token : Type :=
| TLBrace | TRBrace | TLBracket | TRBracket | TColon | TComma
| TString (text : string)
| TNumber (literal : string)
| TTrue | TFalse | TNull.

Definition dquote : ascii := "034"%char.
Definition backslash : ascii := "092"%char.

Definition in_range (lo hi : N) (c : ascii) : bool :=
  ((lo <=? N_of_ascii c) && (N_of_ascii c <=? hi))%N.

Definition is_digit (c : ascii) : bool := in_range 48 57 c.

Definition is_hex (c : ascii) : bool :=
  is_digit c || in_range 65 70 c || in_range 97 102 c.

(** Space, tab, line feed, carriage return. *)
Definition is_ws (c : ascii) : bool :=
  let n := N_of_ascii c in
  ((n =? 32) || (n =? 9) || (n =? 10) || (n =? 13))%N.

(** The characters of numbers and of the literals true, false and null. *)
Definition is_word_char (c : ascii) : bool :=
  is_digit c || in_range 97 122 c || in_range 65 90 c ||
  bool_decide (c = "+"%char) || bool_decide (c = "-"%char) ||
  bool_decide (c = "."%char).

Fixpoint skip_digits (s : string) : string :=
  match s with
  | String c r => if is_digit c then skip_digits r else s
  | EmptyString => s
  end.

(** One digit at least, then [k] on what follows the digits. *)
Definition digits_then (k : string -> bool) (s : string) : bool :=
  match s with
  | String c r => is_digit c && k (skip_digits r)
  | EmptyString => false
  end.

Definition is_exponent (s : string) : bool :=
  match s with
  | EmptyString => true
  | String c r =>
      (bool_decide (c = "e"%char) || bool_decide (c = "E"%char)) &&
      digits_then (fun rest => bool_decide (rest = EmptyString))
        match r with
        | String d r' =>
            if bool_decide (d = "+"%char) || bool_decide (d = "-"%char)
            then r' else r
        | EmptyString => r
        end
  end.

Definition is_fraction (s : string) : bool :=
  match s with
  | String c r =>
      if bool_decide (c = "."%char) then digits_then is_exponent r
      else is_exponent s
  | EmptyString => true
  end.

(** The number grammar: an optional minus, an integer part without leading
    zeros, an optional fraction, an optional exponent. *)
Definition is_number (s : string) : bool :=
  let unsigned :=
    match s with
    | String c r => if bool_decide (c = "-"%char) then r else s
    | EmptyString => s
    end in
  match unsigned with
  | String c r =>
      if bool_decide (c = "0"%char) then is_fraction r
      else is_digit c && is_fraction (skip_digits r)
  | EmptyString => false
  end.

Definition word_token (w : string) : option token :=
  if bool_decide (w = "true") then Some TTrue
  else if bool_decide (w = "false") then Some TFalse
  else if bool_decide (w = "null") then Some TNull
  else if is_number w then Some (TNumber w)
  else None.

Definition punct (c : ascii) : option token :=
  if bool_decide (c = "{"%char) then Some TLBrace
  else if bool_decide (c = "}"%char) then Some TRBrace
  else if bool_decide (c = "["%char) then Some TLBracket
  else if bool_decide (c = "]"%char) then Some TRBracket
  else if bool_decide (c = ":"%char) then Some TColon
  else if bool_decide (c = ","%char) then Some TComma
  else None.

(** Where the lexer is: between tokens, inside a string (with the text read
    so far), after a backslash, inside the four hex digits of a unicode
    escape, or inside a number or literal. *)
Inductive lex_mode : Type :=
| Idle
| InStr (acc : string)
| InEsc (acc : string)
| InHex (acc : string) (remaining : nat)
| InWord (acc : string).

Definition snoc (s : string) (c : ascii) : string := s +:+ String c EmptyString.

Definition idle_step (c : ascii) : option (list token * lex_mode) :=
  if is_ws c then Some ([], Idle)
  else if bool_decide (c = dquote) then Some ([], InStr EmptyString)
  else match punct c with
       | Some t => Some ([t], Idle)
       | None => if is_word_char c then Some ([], InWord (String c EmptyString))
                 else None
       end.

(** The characters that may follow a backslash, other than u. *)
Definition is_escape (c : ascii) : bool :=
  bool_decide (c = dquote) || bool_decide (c = backslash) ||
  bool_decide (c = "/"%char) || bool_decide (c = "b"%char) ||
  bool_decide (c = "f"%char) || bool_decide (c = "n"%char) ||
  bool_decide (c = "r"%char) || bool_decide (c = "t"%char).

Definition lex_step (m : lex_mode) (c : ascii) : option (list token * lex_mode) :=
  match m with
  | Idle => idle_step c
  | InStr acc =>
      if bool_decide (c = dquote) then Some ([TString acc], Idle)
      else if bool_decide (c = backslash) then Some ([], InEsc (snoc acc c))
      else if (N_of_ascii c <? 32)%N then None
      else Some ([], InStr (snoc acc c))
  | InEsc acc =>
      if is_escape c then Some ([], InStr (snoc acc c))
      else if bool_decide (c = "u"%char) then Some ([], InHex (snoc acc c) 4)
      else None
  | InHex acc remaining =>
      if is_hex c then
        match remaining with
        | 1%nat => Some ([], InStr (snoc acc c))
        | S remaining' => Some ([], InHex (snoc acc c) remaining')
        | O => None
        end
      else None
  | InWord acc =>
      if is_word_char c then Some ([], InWord (snoc acc c))
      else match word_token acc, idle_step c with
           | Some t, Some (ts, m') => Some (t :: ts, m')
           | _, _ => None
           end
  end.

Fixpoint lex_run (m : lex_mode) (s : string) : option (list token * lex_mode) :=
  match s with
  | EmptyString => Some ([], m)
  | String c s' =>
      match lex_step m c with
      | Some (ts, m') =>
          match lex_run m' s' with
          | Some (ts', m'') => Some (ts ++ ts', m'')
          | None => None
          end
      | None => None
      end
  end.

Definition lex_end (m : lex_mode) : option (list token) :=
  match m with
  | Idle => Some []
  | InWord acc =>
      match word_token acc with
      | Some t => Some [t]
      | None => None
      end
  | InStr _ | InEsc _ | InHex _ _ => None
  end.

Definition lex (s : string) : option (list token) :=
  match lex_run Idle s with
  | Some (ts, m) =>
      match lex_end m with
      | Some te => Some (ts ++ te)
      | None => None
      end
  | None => None
  end.

(** The open containers, innermost first: an array with its elements so far,
    an object waiting for a key, an object waiting for the value of a key. *)
Inductive frame : Type :=
| FArr (acc : list jvalue)
| FKey (acc : list (string * jvalue))
| FVal (acc : list (string * jvalue)) (key : string).

(** What the grammar allows next. *)
Inductive expect : Type :=
| XValue
| XValueOrClose
| XKeyOrClose
| XKey
| XColon
| XAfter
| XDone (v : jvalue).

(** A value is complete: it is the whole text, or goes into the innermost
    open container. *)
Definition reduce (stack : list frame) (v : jvalue) : option (list frame * expect) :=
  match stack with
  | [] => Some ([], XDone v)
  | FArr acc :: stack' => Some (FArr (acc ++ [v]) :: stack', XAfter)
  | FVal acc k :: stack' => Some (FKey (acc ++ [(k, v)]) :: stack', XAfter)
  | FKey _ :: _ => None
  end.

Definition scalar (t : token) : option jvalue :=
  match t with
  | TString s => Some (JString s)
  | TNumber n => Some (JNumber n)
  | TTrue => Some JTrue
  | TFalse => Some JFalse
  | TNull => Some JNull
  | _ => None
  end.

Definition pstep (st : list frame * expect) (t : token)
    : option (list frame * expect) :=
  let (stack, x) := st in
  match x with
  | XValue | XValueOrClose =>
      match t with
      | TLBrace => Some (FKey [] :: stack, XKeyOrClose)
      | TLBracket => Some (FArr [] :: stack, XValueOrClose)
      | TRBracket =>
          match x, stack with
          | XValueOrClose, FArr acc :: stack' => reduce stack' (JArray acc)
          | _, _ => None
          end
      | _ =>
          match scalar t with
          | Some v => reduce stack v
          | None => None
          end
      end
  | XKeyOrClose | XKey =>
      match t with
      | TString k =>
          match stack with
          | FKey acc :: stack' => Some (FVal acc k :: stack', XColon)
          | _ => None
          end
      | TRBrace =>
          match x, stack with
          | XKeyOrClose, FKey acc :: stack' => reduce stack' (JObject acc)
          | _, _ => None
          end
      | _ => None
      end
  | XColon =>
      match t with
      | TColon => Some (stack, XValue)
      | _ => None
      end
  | XAfter =>
      match t, stack with
      | TComma, FArr _ :: _ => Some (stack, XValue)
      | TComma, FKey _ :: _ => Some (stack, XKey)
      | TRBracket, FArr acc :: stack' => reduce stack' (JArray acc)
      | TRBrace, FKey acc :: stack' => reduce stack' (JObject acc)
      | _, _ => None
      end
  | XDone _ => None
  end.

Fixpoint prun (st : list frame * expect) (ts : list token)
    : option (list frame * expect) :=
  match ts with
  | [] => Some st
  | t :: ts' =>
      match pstep st t with
      | Some st' => prun st' ts'
      | None => None
      end
  end.

Definition parse_tokens (ts : list token) : option jvalue :=
  match prun ([], XValue) ts with
  | Some ([], XDone v) => Some v
  | _ => None
  end.

(** The value a text denotes, when it is a JSON text. *)
Definition json_parse (s : string) : option jvalue :=
  match lex s with
  | Some ts => parse_tokens ts
  | None => None
  end.

(** *** Arguments that are safe to interpolate

    The methods put their arguments into the request text as they are. An
    argument that goes between double quotes is safe when it is plain:
    printable ASCII without double quote and backslash. An argument that goes
    in raw (a market id) is safe when it is a plain text in double quotes. *)

Definition plain_char (c : ascii) : bool :=
  in_range 32 126 c && negb (bool_decide (c = dquote)) &&
  negb (bool_decide (c = backslash)).

Fixpoint plain (s : string) : bool :=
  match s with
  | EmptyString => true
  | String c r => plain_char c && plain r
  end.

(** [closed_plain s] is [p] when [s] is the plain text [p] followed by one
    double quote. *)
Fixpoint closed_plain (s : string) : option string :=
  match s with
  | EmptyString => None
  | String c r =>
      if bool_decide (c = dquote) then
        if bool_decide (r = EmptyString) then Some EmptyString else None
      else if plain_char c then
        match closed_plain r with
        | Some p => Some (String c p)
        | None => None
        end
      else None
  end.

Definition unquote (s : string) : option string :=
  match s with
  | String c r => if bool_decide (c = dquote) then closed_plain r else None
  | EmptyString => None
  end.

Fixpoint unquote_all (ids : list string) : option (list string) :=
  match ids with
  | [] => Some []
  | i :: ids' =>
      match unquote i, unquote_all ids' with
      | Some p, Some ps => Some (p :: ps)
      | _, _ => None
      end
  end.

(** The value of the params member of each method's envelope, for safe
    arguments; [None] when an argument is not safe. *)
Definition rpc_params_json (c : rpc_call) : option jvalue :=
  match c with
  | GetGbpFunds => Some (JObject [("wallet", JString "UK")])
  | GetFootballCompetitions =>
      Some (JObject [("filter", JObject [("eventTypeIds", JArray [JString "1"])])])
  | GetFootballGames i =>
      if plain i then
        Some (JObject [("filter", JObject [("competitionIds", JArray [JString i])])])
      else None
  | GetEventsData ids =>
      match unquote_all ids with
      | Some ps =>
          Some (JObject [("filter",
                          JObject [("marketIds", JArray (JString <$> ps))])])
      | None => None
      end
  | GetMarketCatalogue e m =>
      if plain e && plain m then
        Some (JObject [("filter",
                        JObject [("eventIds", JArray [JString e]);
                                 ("marketTypeCodes", JArray [JString m])]);
                       ("maxResults", JString "1")])
      else None
  | GetFootballGameDescription m =>
      match unquote m with
      | Some p =>
          Some (JObject [("filter", JObject [("marketIds", JArray [JString p])]);
                         ("maxResults", JString "1");
                         ("marketProjection", JArray [JString "RUNNER_DESCRIPTION"])])
      | None => None
      end
  | GetMarketData ids =>
      match unquote_all ids with
      | Some ps =>
          Some (JObject [("marketIds", JArray (JString <$> ps));
                         ("priceProjection",
                          JObject [("priceData", JArray [JString "EX_BEST_OFFERS"]);
                                   ("virtualise", JString "true")]);
                         ("orderProjection", JString "EXECUTABLE");
                         ("matchProjection", JString "ROLLED_UP_BY_AVG_PRICE")])
      | None => None
      end
  end.

(** A JSON-RPC 2.0 envelope: an object with the members jsonrpc, method,
    params and id. *)
Definition envelope_json (method : string) (params : jvalue) : jvalue :=
  JObject [("jsonrpc", JString "2.0"); ("method", JString method);
           ("params", params); ("id", JNumber "1")].

(** The tokens of market ids joined by commas. *)
Fixpoint id_tokens (ps : list string) : list token :=
  match ps with
  | [] => []
  | [p] => [TString p]
  | p :: ps' => TString p :: TComma :: id_tokens ps'
  end.

(** * Properties *)

(** ** Helper lemmas *)

Lemma py_eq_str_true (v : pyval) (s : string) :
  py_eq_str v s = true <-> v = PStr s.
Proof.
  destruct v; simpl; try (split; [discriminate | congruence]).
  rewrite bool_decide_eq_true. split; congruence.
Qed.

Lemma py_eq_str_false (v : pyval) (s : string) :
  py_eq_str v s = false <-> v <> PStr s.
Proof.
  rewrite <- py_eq_str_true. destruct (py_eq_str v s); split; congruence.
Qed.

Lemma insert_at_end {A} (l : list A) (x y : A) :
  <[length l := y]> (l ++ [x]) = l ++ [y].
Proof. induction l as [|a l IH]; simpl; [reflexivity | by rewrite IH]. Qed.

(** Case analysis on every outcome the goal still branches on; the branches
    that need no further argument are closed on the way. *)
Ltac outcome_cases :=
  repeat match goal with
    | |- context [match ?o with Return _ => _ | Raise _ => _ end] =>
        destruct o; cbn; try done
    | |- context [let (_, _) := ?p in _] => destruct p; cbn; try done
    end.

(** What [requests_post] does when the script has an answer ready. *)
Lemma requests_post_answer (u d : string) (h : gmap string pyval)
    (c : option (string * string)) (st : system) (r : response)
    (rest : list http_reply) :
  replies st = Answer r :: rest ->
  requests_post u d h c st =
    (Return r, mkSystem (self st) (threads st) (now st) rest
                 (sent st ++ [(now st, mkRequest POST u d h c)]) (journal st)).
Proof. intros H. unfold requests_post. by rewrite H. Qed.

(** Whatever the script says, [requests_post] records the request and leaves
    the instance and the threads alone. *)
Lemma requests_post_frame (u d : string) (h : gmap string pyval)
    (c : option (string * string)) (st : system) :
  let st' := (requests_post u d h c st).2 in
  self st' = self st /\ threads st' = threads st /\ now st' = now st /\
  sent st' = sent st ++ [(now st, mkRequest POST u d h c)] /\
  journal st' = journal st.
Proof. unfold requests_post. by destruct (replies st) as [|[r|] rest]. Qed.

(** ** login *)

(** A successful login, step by step. *)
Lemma login_ok (b64decode_ascii : string -> outcome string)
    (st : system) (username password u p : string)
    (d : gmap string pyval) (status token : pyval) (rest : list http_reply) :
  b64decode_ascii username = Return u ->
  b64decode_ascii password = Return p ->
  replies st = Answer (mkResponse 200 (Some (PDict d))) :: rest ->
  d !! "loginStatus" = Some status ->
  status <> PStr "INVALID_USERNAME_OR_PASSWORD" ->
  d !! "sessionToken" = Some token ->
  login b64decode_ascii username password st =
    (Return tt,
     mkSystem
       (mkBetfair (app_key (self st)) status token (Some (length (threads st)))
                  (alive_refresh_sec (self st)))
       (threads st ++ [Started]) (now st) rest
       (sent st ++ [(now st, login_request u p)])
       (journal st ++ [mkLog INFO "Login status: {}" [status];
                       mkLog INFO "Session token: {}" [token];
                       mkLog INFO "Starting keep alive thread" []])).
Proof.
  intros Hu Hp Hr Hs Hne Ht.
  apply py_eq_str_false in Hne.
  unfold login, bind, lift. rewrite Hu, Hp.
  rewrite (requests_post_answer _ _ _ _ _ _ _ Hr). cbn.
  rewrite Hs. cbn. rewrite Hne. cbn. rewrite Ht. cbn.
  unfold Thread_start, with_self, with_threads; cbn.
  rewrite insert_at_end. by rewrite <- !app_assoc.
Qed.

(** Up to the request, [login] does the same whatever the reply is. *)
Lemma login_sends (b64decode_ascii : string -> outcome string)
    (st : system) (username password u p : string) :
  b64decode_ascii username = Return u ->
  b64decode_ascii password = Return p ->
  sent (login b64decode_ascii username password st).2 =
    sent st ++ [(now st, login_request u p)].
Proof.
  intros Hu Hp. unfold login, bind, lift. rewrite Hu, Hp.
  fold (login_request u p).
  pose proof (requests_post_frame certlogin_url
                ("username=" +:+ u +:+ "&password=" +:+ p)
                (headers (login_request u p)) (cert (login_request u p)) st) as F.
  cbn in F. destruct F as (_ & _ & _ & Hsent & _).
  unfold login_request.
  destruct (requests_post _ _ _ _ st) as [[r|e] st1]; cbn in *; [|done].
  destruct (status_code r =? 200); cbn; [|done].
  destruct (json r) as [v|e]; cbn; [|done].
  destruct (subscript v "loginStatus") as [s|e]; cbn; [|done].
  destruct (py_eq_str s "INVALID_USERNAME_OR_PASSWORD"); cbn; [done|].
  destruct (subscript v "sessionToken") as [tk|e]; cbn; done.
Qed.

(** C1. Whenever the credentials decode and the identity endpoint answers
    HTTP 200 with a body whose loginStatus is anything but
    INVALID_USERNAME_OR_PASSWORD (a success status) and which carries a
    sessionToken, login returns normally from any prior state (in particular
    from a fresh, unauthenticated manager), the manager then holds exactly the
    loginStatus and sessionToken of the body, its other settings are as
    before, and one keep-alive thread has been created and started. *)
Theorem login_success (b64decode_ascii : string -> outcome string)
    (st : system) (username password u p : string)
    (d : gmap string pyval) (status token : pyval) (rest : list http_reply) :
  b64decode_ascii username = Return u ->
  b64decode_ascii password = Return p ->
  replies st = Answer (mkResponse 200 (Some (PDict d))) :: rest ->
  d !! "loginStatus" = Some status ->
  status <> PStr "INVALID_USERNAME_OR_PASSWORD" ->
  d !! "sessionToken" = Some token ->
  let (o, st') := login b64decode_ascii username password st in
  o = Return tt /\
  login_status (self st') = status /\
  session_token (self st') = token /\
  app_key (self st') = app_key (self st) /\
  alive_refresh_sec (self st') = alive_refresh_sec (self st) /\
  alive_thread (self st') = Some (length (threads st)) /\
  threads st' = threads st ++ [Started].
Proof.
  intros Hu Hp Hr Hs Hne Ht.
  rewrite (login_ok _ _ _ _ _ _ _ _ _ _ Hu Hp Hr Hs Hne Ht).
  repeat split; reflexivity.
Qed.

(** The scenario of the specification: the credentials decode to user and
    pass, and the endpoint answers 200 with loginStatus SUCCESS and
    sessionToken abc123. *)
Lemma login_success_witness :
  let st := boot (init "AppKey" default_alive_refresh_sec) 0
              [Answer (mkResponse 200 (Some (PDict
                 {[ "loginStatus" := PStr "SUCCESS";
                    "sessionToken" := PStr "abc123" ]})))] in
  let (o, st') := login rfc4648_decode_ascii "dXNlcg==" "cGFzcw==" st in
  o = Return tt /\
  login_status (self st') = PStr "SUCCESS" /\
  session_token (self st') = PStr "abc123" /\
  app_key (self st') = "AppKey" /\
  alive_refresh_sec (self st') = 7200 /\
  alive_thread (self st') = Some 0%nat /\
  threads st' = [Started].
Proof.
  exact (login_success rfc4648_decode_ascii
           (boot (init "AppKey" default_alive_refresh_sec) 0
              [Answer (mkResponse 200 (Some (PDict
                 {[ "loginStatus" := PStr "SUCCESS";
                    "sessionToken" := PStr "abc123" ]})))])
           "dXNlcg==" "cGFzcw==" "user" "pass"
           {[ "loginStatus" := PStr "SUCCESS"; "sessionToken" := PStr "abc123" ]}
           (PStr "SUCCESS") (PStr "abc123") []
           eq_refl eq_refl eq_refl eq_refl ltac:(discriminate) eq_refl).
Defined.

(** C2. Whenever the credentials decode and the identity endpoint answers
    HTTP 200 with loginStatus INVALID_USERNAME_OR_PASSWORD, login raises
    BetfairException (the code's authentication error) for that status; the
    instance is left exactly as it was, so session_token and login_status keep
    their values; no thread is created or started; and the manager can be
    used again: a following login that the endpoint accepts succeeds and
    stores the new token. *)
Theorem login_invalid_credentials (b64decode_ascii : string -> outcome string)
    (st : system) (username password u p : string)
    (d : gmap string pyval) (rest : list http_reply) :
  b64decode_ascii username = Return u ->
  b64decode_ascii password = Return p ->
  replies st = Answer (mkResponse 200 (Some (PDict d))) :: rest ->
  d !! "loginStatus" = Some (PStr "INVALID_USERNAME_OR_PASSWORD") ->
  let (o, st') := login b64decode_ascii username password st in
  o = Raise (BetfairException
               [PStr "login:loginStatus"; PStr "INVALID_USERNAME_OR_PASSWORD"]) /\
  self st' = self st /\
  threads st' = threads st /\
  active_tasks st' = active_tasks st /\
  replies st' = rest /\
  (forall (status token : pyval) (rest' : list http_reply),
     rest = login_accepted status token :: rest' ->
     status <> PStr "INVALID_USERNAME_OR_PASSWORD" ->
     let (o2, st2) := login b64decode_ascii username password st' in
     o2 = Return tt /\ session_token (self st2) = token /\
     login_status (self st2) = status).
Proof.
  intros Hu Hp Hr Hs.
  destruct (login b64decode_ascii username password st) as [o st'] eqn:E.
  unfold login, bind, lift in E. rewrite Hu, Hp in E.
  rewrite (requests_post_answer _ _ _ _ _ _ _ Hr) in E. cbn in E.
  rewrite Hs in E. cbn in E. injection E as <- <-.
  repeat split.
  intros status token rest' -> Hne.
  pose proof (fun s H => login_ok b64decode_ascii s username password u p
             {[ "loginStatus" := status; "sessionToken" := token ]}
             status token rest' Hu Hp H eq_refl Hne eq_refl) as L.
  rewrite L by reflexivity.
  repeat split.
Qed.

Lemma login_invalid_credentials_witness :
  let st := boot (init "AppKey" default_alive_refresh_sec) 0
              [Answer (mkResponse 200 (Some (PDict
                 {[ "loginStatus" := PStr "INVALID_USERNAME_OR_PASSWORD" ]})));
               login_accepted (PStr "SUCCESS") (PStr "abc123")] in
  let (o, st') := login rfc4648_decode_ascii "dXNlcg==" "d3Jvbmc=" st in
  o = Raise (BetfairException
               [PStr "login:loginStatus"; PStr "INVALID_USERNAME_OR_PASSWORD"]) /\
  self st' = init "AppKey" 7200 /\
  threads st' = [] /\
  active_tasks st' = 0%nat /\
  replies st' = [login_accepted (PStr "SUCCESS") (PStr "abc123")] /\
  (forall (status token : pyval) (rest' : list http_reply),
     [login_accepted (PStr "SUCCESS") (PStr "abc123")] =
       login_accepted status token :: rest' ->
     status <> PStr "INVALID_USERNAME_OR_PASSWORD" ->
     let (o2, st2) := login rfc4648_decode_ascii "dXNlcg==" "d3Jvbmc=" st' in
     o2 = Return tt /\ session_token (self st2) = token /\
     login_status (self st2) = status).
Proof.
  exact (login_invalid_credentials rfc4648_decode_ascii
           (boot (init "AppKey" default_alive_refresh_sec) 0
              [Answer (mkResponse 200 (Some (PDict
                 {[ "loginStatus" := PStr "INVALID_USERNAME_OR_PASSWORD" ]})));
               login_accepted (PStr "SUCCESS") (PStr "abc123")])
           "dXNlcg==" "d3Jvbmc=" "user" "wrong"
           {[ "loginStatus" := PStr "INVALID_USERNAME_OR_PASSWORD" ]}
           [login_accepted (PStr "SUCCESS") (PStr "abc123")]
           eq_refl eq_refl eq_refl eq_refl).
Defined.

(** C3. Whenever the credentials decode and the identity endpoint answers
    with an HTTP status other than 200, login raises BetfairException with
    the arguments login and Unknown error (the code's spelling of the
    authentication error with reason unknown), and the instance, so also
    session_token and login_status, and the threads are left as they were. *)
Theorem login_non_200 (b64decode_ascii : string -> outcome string)
    (st : system) (username password u p : string)
    (r : response) (rest : list http_reply) :
  b64decode_ascii username = Return u ->
  b64decode_ascii password = Return p ->
  replies st = Answer r :: rest ->
  status_code r <> 200 ->
  let (o, st') := login b64decode_ascii username password st in
  o = Raise (BetfairException [PStr "login"; PStr "Unknown error"]) /\
  session_token (self st') = session_token (self st) /\
  login_status (self st') = login_status (self st) /\
  self st' = self st /\
  threads st' = threads st.
Proof.
  intros Hu Hp Hr Hc.
  unfold login, bind, lift. rewrite Hu, Hp.
  rewrite (requests_post_answer _ _ _ _ _ _ _ Hr). cbn.
  apply Z.eqb_neq in Hc. rewrite Hc. cbn. repeat split.
Qed.

Lemma login_non_200_witness :
  let st := boot (init "AppKey" default_alive_refresh_sec) 0
              [Answer (mkResponse 503 None)] in
  let (o, st') := login rfc4648_decode_ascii "dXNlcg==" "cGFzcw==" st in
  o = Raise (BetfairException [PStr "login"; PStr "Unknown error"]) /\
  session_token (self st') = PStr "" /\
  login_status (self st') = PStr "" /\
  self st' = init "AppKey" 7200 /\
  threads st' = [].
Proof.
  exact (login_non_200 rfc4648_decode_ascii
           (boot (init "AppKey" default_alive_refresh_sec) 0
              [Answer (mkResponse 503 None)])
           "dXNlcg==" "cGFzcw==" "user" "pass" (mkResponse 503 None) []
           eq_refl eq_refl eq_refl ltac:(discriminate)).
Defined.

(** C8. What login sends at a concrete call. The manager is configured with
    the application key MyAppKey and the credentials decode to user and pass.
    The request is a POST to the identity endpoint whose body is
    username=user&password=pass, but its X-Application header is the
    literal SomeKey, not the configured key (which keep_alive and the
    JSON-RPC calls do send). *)
Theorem login_sends_literal_key :
  let st := boot (init "MyAppKey" default_alive_refresh_sec) 0
              [login_accepted (PStr "SUCCESS") (PStr "abc123")] in
  exists req : request,
    sent (login rfc4648_decode_ascii "dXNlcg==" "cGFzcw==" st).2 = [(0, req)] /\
    verb req = POST /\
    url req = certlogin_url /\
    data req = "username=user&password=pass" /\
    headers req !! "X-Application" = Some (PStr "SomeKey") /\
    headers req !! "X-Application" <> Some (PStr (app_key (self st))).
Proof.
  intros st. exists (login_request "user" "pass").
  split; [exact (login_sends rfc4648_decode_ascii st "dXNlcg==" "cGFzcw=="
                    "user" "pass" eq_refl eq_refl)|].
  repeat split. intros H. vm_compute in H. discriminate H.
Qed.

(** ** keep_alive *)

(** [keep_alive] in closed form: the verdict on the scripted reply, and the
    state with the request recorded and the reply consumed. *)
Lemma keep_alive_eq (st : system) :
  keep_alive st =
    (match replies st with
     | Answer r :: _ => keep_alive_verdict r
     | _ => Raise RequestException
     end,
     mkSystem (self st) (threads st) (now st) (tail (replies st))
       (sent st ++ [(now st, keep_alive_request (self st))]) (journal st)).
Proof.
  unfold keep_alive, bind, lift, get_self, requests_post, keep_alive_request,
    keep_alive_verdict.
  destruct (replies st) as [|[r|] rest]; cbn; try done.
  destruct (status_code r =? 200); cbn; [|done].
  destruct (json r) as [v|e]; cbn; [|done].
  destruct (subscript v "status") as [s|e]; cbn; [|done].
  destruct (py_eq_str s "FAIL"); cbn; [done|].
  destruct (subscript v "error") as [er|e]; cbn; [|done].
  destruct (py_eq_str er ""); cbn; done.
Qed.

(** [keep_alive] writes to nothing but the network: it records one request
    and consumes one scripted reply, whatever its outcome. *)
Lemma keep_alive_frame (st : system) :
  let st' := (keep_alive st).2 in
  self st' = self st /\ threads st' = threads st /\ now st' = now st /\
  sent st' = sent st ++ [(now st, keep_alive_request (self st))] /\
  journal st' = journal st /\ replies st' = tail (replies st).
Proof. by rewrite keep_alive_eq. Qed.

Lemma keep_alive_answer (st : system) (r : response) (rest : list http_reply) :
  replies st = Answer r :: rest ->
  (keep_alive st).1 = keep_alive_verdict r.
Proof. intros Hr. by rewrite keep_alive_eq, Hr. Qed.

(** C4. Let the keep-alive endpoint answer, and let an HTTP 200 answer have
    as body a JSON object with the fields status and error. Then keep_alive
    raises BetfairException (the code's session error) exactly when the
    answer is 200 with status FAIL or with an error other than the empty
    string, or is not 200. For a non-200 answer the exception carries
    keepAlive and Unknown error; for status FAIL it carries keepAlive:status
    and FAIL; for a non-empty error (status not FAIL) it carries
    keepAlive:error and that error. On a 200 answer whose status is not FAIL
    and whose error is the empty string keep_alive returns normally. *)
Theorem keep_alive_fails_iff (st : system) (r : response) (rest : list http_reply)
    (d : gmap string pyval) (status error : pyval) :
  replies st = Answer r :: rest ->
  (status_code r = 200 ->
   body r = Some (PDict d) /\ d !! "status" = Some status /\
   d !! "error" = Some error) ->
  let o := (keep_alive st).1 in
  (raised_BetfairException o = true <->
     (status_code r = 200 /\ (status = PStr "FAIL" \/ error <> PStr "")) \/
     status_code r <> 200) /\
  (status_code r <> 200 ->
     o = Raise (BetfairException [PStr "keepAlive"; PStr "Unknown error"])) /\
  (status_code r = 200 -> status = PStr "FAIL" ->
     o = Raise (BetfairException [PStr "keepAlive:status"; PStr "FAIL"])) /\
  (status_code r = 200 -> status <> PStr "FAIL" -> error <> PStr "" ->
     o = Raise (BetfairException [PStr "keepAlive:error"; error])) /\
  (status_code r = 200 -> status <> PStr "FAIL" -> error = PStr "" ->
     o = Return tt).
Proof.
  intros Hr Hshape o. subst o.
  rewrite (keep_alive_answer st r rest Hr). unfold keep_alive_verdict.
  destruct (Z.eqb_spec (status_code r) 200) as [Hc|Hc].
  - destruct (Hshape Hc) as (Hb & Hs & He).
    unfold json. rewrite Hb. cbn. rewrite Hs, He.
    destruct (py_eq_str status "FAIL") eqn:Es;
      [apply py_eq_str_true in Es | apply py_eq_str_false in Es].
    + cbn. repeat split; try done. intros _. left. by split; [|left].
    + destruct (py_eq_str error "") eqn:Ee;
        [apply py_eq_str_true in Ee | apply py_eq_str_false in Ee]; cbn.
      * repeat split; try done. intros [[_ [?|?]]|?]; done.
      * repeat split; try done. intros _. left. by split; [|right].
  - cbn. repeat split; try done. intros _. by right.
Qed.

Lemma keep_alive_fails_iff_witness :
  let st := boot (init "AppKey" default_alive_refresh_sec) 0
              [Answer (mkResponse 200 (Some (PDict
                 {[ "status" := PStr "FAIL"; "error" := PStr "NO_SESSION" ]})))] in
  let r := mkResponse 200 (Some (PDict
             {[ "status" := PStr "FAIL"; "error" := PStr "NO_SESSION" ]})) in
  let o := (keep_alive st).1 in
  (raised_BetfairException o = true <->
     (status_code r = 200 /\
      (PStr "FAIL" = PStr "FAIL" \/ PStr "NO_SESSION" <> PStr "")) \/
     status_code r <> 200) /\
  (status_code r <> 200 ->
     o = Raise (BetfairException [PStr "keepAlive"; PStr "Unknown error"])) /\
  (status_code r = 200 -> PStr "FAIL" = PStr "FAIL" ->
     o = Raise (BetfairException [PStr "keepAlive:status"; PStr "FAIL"])) /\
  (status_code r = 200 -> PStr "FAIL" <> PStr "FAIL" ->
     PStr "NO_SESSION" <> PStr "" ->
     o = Raise (BetfairException [PStr "keepAlive:error"; PStr "NO_SESSION"])) /\
  (status_code r = 200 -> PStr "FAIL" <> PStr "FAIL" ->
     PStr "NO_SESSION" = PStr "" ->
     o = Return tt).
Proof.
  exact (keep_alive_fails_iff
           (boot (init "AppKey" default_alive_refresh_sec) 0
              [Answer (mkResponse 200 (Some (PDict
                 {[ "status" := PStr "FAIL"; "error" := PStr "NO_SESSION" ]})))])
           (mkResponse 200 (Some (PDict
              {[ "status" := PStr "FAIL"; "error" := PStr "NO_SESSION" ]})))
           []
           {[ "status" := PStr "FAIL"; "error" := PStr "NO_SESSION" ]}
           (PStr "FAIL") (PStr "NO_SESSION")
           eq_refl (fun _ => conj eq_refl (conj eq_refl eq_refl))).
Defined.

Lemma keep_alive_healthy (st : system) (reply : http_reply) (rest : list http_reply) :
  replies st = reply :: rest ->
  healthy reply = true ->
  (keep_alive st).1 = Return tt.
Proof.
  intros Hr Hh. destruct reply as [r|]; [|discriminate].
  rewrite (keep_alive_answer st r rest Hr).
  unfold healthy in Hh. unfold keep_alive_verdict, json.
  destruct (status_code r =? 200); [|discriminate]. cbn in Hh.
  destruct (body r) as [[| | | | | |d]|]; try discriminate. cbn.
  destruct (d !! "status") as [s|]; [|discriminate].
  destruct (d !! "error") as [e|]; [|discriminate].
  apply andb_true_iff in Hh as [Hs He].
  apply negb_true_iff in Hs. by rewrite Hs, He.
Qed.

Lemma probes_step (n : nat) (st : system) :
  probes (S n) st =
    ((keep_alive st).1 :: (probes n (keep_alive st).2).1,
     (probes n (keep_alive st).2).2).
Proof.
  change (probes (S n) st) with
    (let (o, st1) := keep_alive st in
     let (os, st2) := probes n st1 in (o :: os, st2)).
  destruct (keep_alive st) as [o st1]. cbn [fst snd].
  by destruct (probes n st1) as [os st2].
Qed.

Lemma probes_frame (n : nat) (st : system) :
  self (probes n st).2 = self st /\
  threads (probes n st).2 = threads st /\
  replies (probes n st).2 = drop n (replies st).
Proof.
  revert st. induction n as [|n IH]; intros st; [done|].
  rewrite probes_step; cbn [fst snd].
  destruct (IH (keep_alive st).2) as (-> & -> & ->).
  destruct (keep_alive_frame st) as (-> & -> & _ & _ & _ & ->).
  repeat split. destruct (replies st); cbn; [by destruct n | done].
Qed.

(** A step of a keep-alive thread leaves the instance alone. *)
Lemma thread_step_self (t : nat) (st : system) :
  self (thread_step t st) = self st.
Proof.
  unfold thread_step.
  destruct (threads st !! t) as [[| | |wake|e]|]; try done.
  - unfold bind, log. rewrite keep_alive_eq.
    destruct (match replies st with
              | Answer r :: _ => keep_alive_verdict r
              | _ => Raise RequestException
              end) as [[]|e]; cbn; [|done].
    by destruct (_ <? 0).
  - by destruct (wake <=? now st).
Qed.

Section Probing.

Variable b64decode_ascii : string -> outcome string.
Variable float : pyval -> outcome pyval.

Lemma exec_probing_self (a : action) (st : system) :
  probing a = true -> self (exec b64decode_ascii float a st) = self st.
Proof.
  destruct a as [u p| |c|t|d]; intros H; try discriminate H; cbn [exec].
  - by rewrite keep_alive_eq.
  - apply thread_step_self.
  - done.
Qed.

Lemma run_probing_self (l : list action) (st : system) :
  forallb probing l = true -> self (run b64decode_ascii float l st) = self st.
Proof.
  revert st. induction l as [|a l IH]; intros st H; [done|].
  cbn in H. apply andb_true_iff in H as [Ha Hl].
  rewrite <- (exec_probing_self a st Ha). exact (IH _ Hl).
Qed.

End Probing.

(** C5. From any state, if the next N scripted answers of the keep-alive
    endpoint report a live session, then N calls of keep_alive in a row all
    return normally and leave the instance as it was: session_token and
    login_status (and every other attribute) have their earlier values, and no
    thread was created or stopped. The same holds for the background loop:
    no sequence of keep_alive calls, steps of keep-alive threads and waiting,
    whatever the answers to the probes, changes the instance. *)
Theorem keep_alive_preserves_session (b64decode_ascii : string -> outcome string)
    (float : pyval -> outcome pyval) (n : nat) (st : system)
    (script rest : list http_reply) :
  replies st = script ++ rest ->
  length script = n ->
  forallb healthy script = true ->
  (let (outcomes, st') := probes n st in
   outcomes = replicate n (Return tt) /\
   session_token (self st') = session_token (self st) /\
   login_status (self st') = login_status (self st) /\
   self st' = self st /\
   threads st' = threads st /\
   replies st' = rest) /\
  (forall l : list action,
     forallb probing l = true ->
     let st' := run b64decode_ascii float l st in
     session_token (self st') = session_token (self st) /\
     login_status (self st') = login_status (self st)).
Proof.
  intros Hr Hn Hh. split.
  - destruct (probes n st) as [outcomes st'] eqn:E.
    pose proof (probes_frame n st) as F. rewrite E in F; cbn in F.
    destruct F as (Fs & Ft & Fr).
    assert (outcomes = replicate n (Return tt)) as ->.
    { change outcomes with (outcomes, st').1. rewrite <- E. clear E Fs Ft Fr st'.
      revert st n Hr Hn Hh. induction script as [|reply script IH];
        intros st n Hr Hn Hh; subst n; [done|].
      cbn in Hh. apply andb_true_iff in Hh as [Hh1 Hh2].
      cbn [length]. rewrite probes_step. cbn [fst replicate].
      rewrite (keep_alive_healthy st reply (script ++ rest) Hr Hh1).
      f_equal. apply IH; [|done|done].
      destruct (keep_alive_frame st) as (_ & _ & _ & _ & _ & ->).
      by rewrite Hr. }
    rewrite Fs, Ft, Fr, Hr, <- Hn. rewrite drop_app_length. done.
  - intros l Hl. cbn zeta. by rewrite (run_probing_self _ _ l st Hl).
Qed.

Lemma keep_alive_preserves_session_witness :
  let ok := Answer (mkResponse 200 (Some (PDict
              {[ "status" := PStr "SUCCESS"; "error" := PStr "" ]}))) in
  let b := mkBetfair "AppKey" (PStr "SUCCESS") (PStr "abc123") (Some 0%nat) 7200 in
  let st := mkSystem b [Sleeping 7200] 0 [ok; ok; ok; Fails] [] [] in
  (let (outcomes, st') := probes 3 st in
   outcomes = replicate 3 (Return tt) /\
   session_token (self st') = PStr "abc123" /\
   login_status (self st') = PStr "SUCCESS" /\
   self st' = b /\
   threads st' = [Sleeping 7200] /\
   replies st' = [Fails]) /\
  (forall l : list action,
     forallb probing l = true ->
     let st' := run rfc4648_decode_ascii float_of_number l st in
     session_token (self st') = PStr "abc123" /\
     login_status (self st') = PStr "SUCCESS").
Proof.
  exact (keep_alive_preserves_session rfc4648_decode_ascii float_of_number 3
           (mkSystem
              (mkBetfair "AppKey" (PStr "SUCCESS") (PStr "abc123") (Some 0%nat) 7200)
              [Sleeping 7200] 0
              (replicate 3 (Answer (mkResponse 200 (Some (PDict
                 {[ "status" := PStr "SUCCESS"; "error" := PStr "" ]})))) ++ [Fails])
              [] [])
           (replicate 3 (Answer (mkResponse 200 (Some (PDict
              {[ "status" := PStr "SUCCESS"; "error" := PStr "" ]})))))
           [Fails] eq_refl eq_refl eq_refl).
Defined.

(** ** The background thread *)

Lemma call_aping_frame (req u : string) (st : system) :
  let st' := (call_aping req u st).2 in
  self st' = self st /\ threads st' = threads st /\ now st' = now st /\
  sent st' = sent st ++
    [(now st, mkRequest POST u req (aping_headers (self st)) None)] /\
  journal st' = journal st.
Proof.
  unfold call_aping, bind, lift, get_self, requests_post, aping_headers.
  destruct (replies st) as [|[r|] rest]; cbn; done.
Qed.

Lemma lift_bind {A B} (o : outcome A) (k : A -> M B) (st : system) :
  bind (lift o) k st = match o with Return a => k a st | Raise e => (Raise e, st) end.
Proof. reflexivity. Qed.

(** The request templates have as many [%s] as the methods pass arguments,
    so formatting them returns. *)
Ltac formatted req :=
  match goal with
  | |- context [lift (percent_format ?t ?args)] =>
      let E := fresh "E" in
      destruct (percent_format t args) as [req|?] eqn:E;
      [rewrite lift_bind | by vm_compute in E]
  end.

(** After the reply is parsed, a JSON-RPC method only inspects it. *)
Lemma invoke_state (float : pyval -> outcome pyval) (c : rpc_call) (st : system) :
  exists req : string,
    (invoke float c st).2 = (call_aping req (rpc_url c) st).2
    /\ match c with
       | GetGbpFunds => Return req = Return account_req
       | GetFootballCompetitions => Return req = Return football_req
       | GetFootballGames i => Return req = percent_format football_ids_template [i]
       | GetEventsData ids => Return req = percent_format event_template [join "," ids]
       | GetMarketCatalogue e m => Return req = percent_format market_template [e; m]
       | GetFootballGameDescription m => Return req = percent_format game_desc_template [m]
       | GetMarketData ids => Return req = percent_format market_data_template [join "," ids]
       end.
Proof.
  destruct c; cbn [invoke rpc_url].
  - exists account_req. split; [|done].
    unfold get_gbp_funds, bind, lift. outcome_cases.
  - exists football_req. split; [|done].
    unfold get_football_competitions, bind, lift, ret. outcome_cases.
  - unfold get_football_games. formatted req. exists req. split; [|done].
    unfold bind, lift, ret. outcome_cases.
  - unfold get_events_data. formatted req. by exists req.
  - unfold get_market_catalogue. formatted req. exists req. split; [|done].
    unfold bind, lift. outcome_cases.
  - unfold get_football_game_description. formatted req. by exists req.
  - unfold get_market_data. formatted req. by exists req.
Qed.

Lemma invoke_frame (float : pyval -> outcome pyval) (c : rpc_call) (st : system) :
  let st' := (invoke float c st).2 in
  self st' = self st /\ threads st' = threads st /\ now st' = now st.
Proof.
  destruct (invoke_state float c st) as (req & -> & _).
  destruct (call_aping_frame req (rpc_url c) st) as (? & ? & ? & _). done.
Qed.

(** [login] never touches the threads that exist: it adds one or none. *)
Lemma login_threads (b64decode_ascii : string -> outcome string)
    (username password : string) (st : system) :
  let st' := (login b64decode_ascii username password st).2 in
  threads st' = threads st \/ threads st' = threads st ++ [Started].
Proof.
  unfold login, bind, lift.
  destruct (b64decode_ascii username) as [u|e]; [|by left].
  destruct (b64decode_ascii password) as [p|e]; [|by left].
  destruct (requests_post_frame certlogin_url
              ("username=" +:+ u +:+ "&password=" +:+ p)
              {[ "X-Application" := PStr "SomeKey";
                 "Content-Type" := PStr "application/x-www-form-urlencoded" ]}
              (Some ("client-2048.crt", "client-2048.key")) st)
    as (_ & Ht & _).
  destruct (requests_post _ _ _ _ st) as [[r|e] st1]; cbn in *; [|by left].
  destruct (status_code r =? 200); cbn; [|by left].
  destruct (json r) as [v|e]; cbn; [|by left].
  destruct (subscript v "loginStatus") as [s|e]; cbn; [|by left].
  destruct (py_eq_str s "INVALID_USERNAME_OR_PASSWORD"); cbn; [by left|].
  destruct (subscript v "sessionToken") as [tk|e]; cbn; [|by left].
  right. rewrite Ht. apply insert_at_end.
Qed.

Lemma thread_step_dead (t : nat) (e : exn) (st : system) :
  threads st !! t = Some (Terminated e) -> thread_step t st = st.
Proof. intros H. unfold thread_step. by rewrite H. Qed.

(** A step of thread [t'] changes no other thread, and not a dead one. *)
Lemma thread_step_keeps_dead (t t' : nat) (e : exn) (st : system) :
  threads st !! t = Some (Terminated e) ->
  threads (thread_step t' st) !! t = Some (Terminated e).
Proof.
  intros H. destruct (decide (t' = t)) as [->|Hne].
  { by rewrite (thread_step_dead t e st H). }
  unfold thread_step.
  destruct (threads st !! t') as [[| | |wake|e']|]; try done.
  - cbn. by rewrite list_lookup_insert_ne.
  - unfold bind, log.
    destruct (keep_alive_frame st) as (_ & Ht & _).
    destruct (keep_alive st) as [[[]|e'] st1]; cbn in *.
    + destruct (_ <? 0); cbn; rewrite list_lookup_insert_ne by done;
        by rewrite Ht.
    + rewrite list_lookup_insert_ne by done. by rewrite Ht.
  - destruct (wake <=? now st); [|done]. cbn. by rewrite list_lookup_insert_ne.
Qed.

Section Dead.

Variable b64decode_ascii : string -> outcome string.
Variable float : pyval -> outcome pyval.

Lemma exec_keeps_dead (a : action) (t : nat) (e : exn) (st : system) :
  threads st !! t = Some (Terminated e) ->
  threads (exec b64decode_ascii float a st) !! t = Some (Terminated e).
Proof.
  intros H. destruct a as [u p| |c|t'|d]; cbn [exec].
  - destruct (login_threads b64decode_ascii u p st) as [->| ->]; [done|].
    by apply lookup_app_l_Some.
  - by destruct (keep_alive_frame st) as (_ & -> & _).
  - by destruct (invoke_frame float c st) as (_ & -> & _).
  - by apply thread_step_keeps_dead.
  - done.
Qed.

Lemma run_keeps_dead (l : list action) (t : nat) (e : exn) (st : system) :
  threads st !! t = Some (Terminated e) ->
  threads (run b64decode_ascii float l st) !! t = Some (Terminated e).
Proof.
  revert st. induction l as [|a l IH]; intros st H; [done|].
  cbn. apply IH. by apply exec_keeps_dead.
Qed.

End Dead.

(** One turn of the loop body when the probe succeeds: the thread goes to
    sleep until [alive_refresh_sec] seconds later, does nothing when it is
    scheduled before that time, and is back at the loop head (about to probe
    again) when scheduled at or after it. *)
Lemma thread_step_probe_ok (t : nat) (st : system) (reply : http_reply)
    (rest : list http_reply) :
  threads st !! t = Some LoopHead ->
  replies st = reply :: rest ->
  healthy reply = true ->
  0 <= alive_refresh_sec (self st) ->
  let st1 := thread_step t st in
  let wake := now st + alive_refresh_sec (self st) in
  threads st1 !! t = Some (Sleeping wake) /\
  self st1 = self st /\
  sent st1 = sent st ++ [(now st, keep_alive_request (self st))] /\
  (forall d, now st + Z.max 0 d < wake -> thread_step t (tick d st1) = tick d st1) /\
  (forall d, wake <= now st + Z.max 0 d ->
     threads (thread_step t (tick d st1)) !! t = Some LoopHead).
Proof.
  intros Ht Hr Hh Hsecs.
  assert (t < length (threads st))%nat as Hlt by by eapply lookup_lt_Some.
  assert (thread_step t st =
          set_thread t (Sleeping (now st + alive_refresh_sec (self st)))
            (mkSystem (self st) (threads st) (now st) rest
               (sent st ++ [(now st, keep_alive_request (self st))])
               (journal st ++ [mkLog INFO "Keeping alive ..." []]))) as ->.
  { unfold thread_step. rewrite Ht. unfold bind, log.
    pose proof (keep_alive_healthy st reply rest Hr Hh) as Ho.
    rewrite keep_alive_eq in Ho |- *. cbn in Ho. rewrite Ho. cbn.
    destruct (Z.ltb_spec (alive_refresh_sec (self st)) 0); [lia|].
    by rewrite Hr. }
  cbn. rewrite list_lookup_insert_eq by done.
  repeat split.
  - intros d Hd. unfold thread_step; cbn.
    rewrite list_lookup_insert_eq by done.
    destruct (Z.leb_spec (now st + alive_refresh_sec (self st))
                         (now st + Z.max 0 d)); [lia|done].
  - intros d Hd. unfold thread_step; cbn.
    rewrite list_lookup_insert_eq by done.
    destruct (Z.leb_spec (now st + alive_refresh_sec (self st))
                         (now st + Z.max 0 d)); [|lia].
    cbn. rewrite list_lookup_insert_eq; [done|]. by rewrite length_insert.
Qed.

(** A probe that raises ends the thread that made it, for good: whatever
    happens afterwards, the thread stays dead and scheduling it does
    nothing. *)
Lemma failed_probe_ends_thread (b64decode_ascii : string -> outcome string)
    (float : pyval -> outcome pyval) (st : system) (t : nat) (e : exn) :
  threads st !! t = Some LoopHead ->
  (keep_alive st).1 = Raise e ->
  let st1 := thread_step t st in
  threads st1 !! t = Some (Terminated e) /\
  self st1 = self st /\
  sent st1 = sent st ++ [(now st, keep_alive_request (self st))] /\
  forall l : list action,
    let st2 := run b64decode_ascii float l st1 in
    threads st2 !! t = Some (Terminated e) /\ thread_step t st2 = st2.
Proof.
  intros Ht Ho.
  assert (t < length (threads st))%nat as Hlt by by eapply lookup_lt_Some.
  assert (thread_step t st =
          set_thread t (Terminated e) (keep_alive st).2) as Hstep.
  { unfold thread_step. rewrite Ht. unfold bind.
    destruct (keep_alive st) as [o st1]; cbn in *. by subst o. }
  cbn zeta. rewrite Hstep. rewrite keep_alive_eq. cbn.
  assert (<[t:=Terminated e]> (threads st) !! t = Some (Terminated e)) as Hdead
    by by rewrite list_lookup_insert_eq.
  repeat split; [done|..].
  - by apply run_keeps_dead.
  - eapply thread_step_dead. by apply run_keeps_dead.
Qed.

(** C6, as the code has it. When the probe made by a keep-alive thread is
    answered HTTP 200 with status FAIL, keep_alive raises BetfairException
    for keepAlive:status and FAIL inside that thread; nothing in the loop
    catches it, so the exception ends the loop and the thread. The failing
    probe was sent, the instance is unchanged, and from then on, whatever
    calls, thread steps and waiting follow, the thread stays terminated with
    that exception and scheduling it does nothing: it issues no further
    probe. *)
Theorem keep_alive_failure_ends_loop (b64decode_ascii : string -> outcome string)
    (float : pyval -> outcome pyval) (st : system) (t : nat)
    (d : gmap string pyval) (rest : list http_reply) :
  threads st !! t = Some LoopHead ->
  replies st = Answer (mkResponse 200 (Some (PDict d))) :: rest ->
  d !! "status" = Some (PStr "FAIL") ->
  let e := BetfairException [PStr "keepAlive:status"; PStr "FAIL"] in
  let st1 := thread_step t st in
  threads st1 !! t = Some (Terminated e) /\
  self st1 = self st /\
  sent st1 = sent st ++ [(now st, keep_alive_request (self st))] /\
  forall l : list action,
    let st2 := run b64decode_ascii float l st1 in
    threads st2 !! t = Some (Terminated e) /\ thread_step t st2 = st2.
Proof.
  intros Ht Hr Hs. apply failed_probe_ends_thread; [done|].
  rewrite (keep_alive_answer st _ rest Hr). unfold keep_alive_verdict. cbn.
  by rewrite Hs.
Qed.

Lemma keep_alive_failure_ends_loop_witness :
  let st := mkSystem (mkBetfair "AppKey" (PStr "SUCCESS") (PStr "abc123")
                        (Some 0%nat) 7200)
              [LoopHead] 0 [answer_fail; answer_alive] [] [] in
  let e := BetfairException [PStr "keepAlive:status"; PStr "FAIL"] in
  let st1 := thread_step 0 st in
  threads st1 !! 0%nat = Some (Terminated e) /\
  self st1 = self st /\
  sent st1 = sent st ++ [(now st, keep_alive_request (self st))] /\
  forall l : list action,
    let st2 := run rfc4648_decode_ascii float_of_number l st1 in
    threads st2 !! 0%nat = Some (Terminated e) /\ thread_step 0 st2 = st2.
Proof.
  exact (keep_alive_failure_ends_loop rfc4648_decode_ascii float_of_number
           (mkSystem (mkBetfair "AppKey" (PStr "SUCCESS") (PStr "abc123")
                        (Some 0%nat) 7200)
              [LoopHead] 0 [answer_fail; answer_alive] [] [])
           0%nat {[ "status" := PStr "FAIL"; "error" := PStr "" ]}
           [answer_alive] eq_refl eq_refl eq_refl).
Defined.

(** C6, as claimed, fails. A manager logs in; its keep-alive thread enters
    the loop and its first probe is answered with status FAIL. The thread is
    then terminated, not running; after the configured interval of 7200
    seconds has passed and the thread is scheduled again, the state is as
    before: still one probe sent in all, and the healthy answer that a
    further probe would have consumed is still waiting. *)
Lemma keep_alive_loop_dies_on_FAIL :
  let st0 := boot (init "AppKey" default_alive_refresh_sec) 0
               [login_accepted (PStr "SUCCESS") (PStr "abc123");
                answer_fail; answer_alive] in
  let st1 := (login rfc4648_decode_ascii "dXNlcg==" "cGFzcw==" st0).2 in
  let st2 := thread_step 0 (thread_step 0 st1) in
  let st3 := thread_step 0 (tick (alive_refresh_sec (self st2)) st2) in
  threads st1 = [Started] /\
  threads st2 =
    [Terminated (BetfairException [PStr "keepAlive:status"; PStr "FAIL"])] /\
  length (sent_to keepAlive_url st2) = 1%nat /\
  now st3 = 7200 /\
  ~ (active_tasks st3 = 1%nat) /\
  ~ (length (sent_to keepAlive_url st2) < length (sent_to keepAlive_url st3))%nat /\
  replies st3 = [answer_alive].
Proof.
  vm_compute. repeat split; try reflexivity; intros H; [discriminate H | lia].
Qed.

(** ** One keep-alive thread per login *)

(** C7, as the code has it. Every successful login creates and starts one
    more keep-alive thread and stops none of those already running. So after
    two logins in succession that the endpoint both accepts, the threads
    that existed are as they were, two new ones are running side by side, the
    number of active keep-alive threads has grown by two, and the instance
    refers to the later thread only. *)
Theorem login_twice_two_loops (b64decode_ascii : string -> outcome string)
    (st : system) (username password u p : string)
    (status1 token1 status2 token2 : pyval) (rest : list http_reply) :
  b64decode_ascii username = Return u ->
  b64decode_ascii password = Return p ->
  replies st =
    login_accepted status1 token1 :: login_accepted status2 token2 :: rest ->
  status1 <> PStr "INVALID_USERNAME_OR_PASSWORD" ->
  status2 <> PStr "INVALID_USERNAME_OR_PASSWORD" ->
  let (o1, st1) := login b64decode_ascii username password st in
  let (o2, st2) := login b64decode_ascii username password st1 in
  o1 = Return tt /\ o2 = Return tt /\
  threads st1 = threads st ++ [Started] /\
  threads st2 = threads st ++ [Started; Started] /\
  active_tasks st1 = S (active_tasks st) /\
  active_tasks st2 = S (S (active_tasks st)) /\
  alive_thread (self st2) = Some (S (length (threads st))) /\
  session_token (self st2) = token2.
Proof.
  intros Hu Hp Hr H1 H2.
  pose proof (fun s d status token rest H => login_ok b64decode_ascii s
                username password u p d status token rest Hu Hp H) as L.
  rewrite (L st _ status1 token1 _ Hr eq_refl H1 eq_refl).
  erewrite (L _ _ status2 token2 rest); [|reflexivity|reflexivity|done|reflexivity].
  unfold active_tasks; cbn [threads self alive_thread session_token].
  rewrite <- !app_assoc, !length_app, !filter_app, !length_app. cbn.
  repeat split; try done; repeat case_decide; try done; cbn; try lia.
  f_equal. lia.
Qed.

Lemma login_twice_two_loops_witness :
  let st := boot (init "AppKey" default_alive_refresh_sec) 0
              [login_accepted (PStr "SUCCESS") (PStr "abc123");
               login_accepted (PStr "SUCCESS") (PStr "def456")] in
  let (o1, st1) := login rfc4648_decode_ascii "dXNlcg==" "cGFzcw==" st in
  let (o2, st2) := login rfc4648_decode_ascii "dXNlcg==" "cGFzcw==" st1 in
  o1 = Return tt /\ o2 = Return tt /\
  threads st1 = [] ++ [Started] /\
  threads st2 = [] ++ [Started; Started] /\
  active_tasks st1 = 1%nat /\
  active_tasks st2 = 2%nat /\
  alive_thread (self st2) = Some 1%nat /\
  session_token (self st2) = PStr "def456".
Proof.
  exact (login_twice_two_loops rfc4648_decode_ascii
           (boot (init "AppKey" default_alive_refresh_sec) 0
              [login_accepted (PStr "SUCCESS") (PStr "abc123");
               login_accepted (PStr "SUCCESS") (PStr "def456")])
           "dXNlcg==" "cGFzcw==" "user" "pass"
           (PStr "SUCCESS") (PStr "abc123") (PStr "SUCCESS") (PStr "def456") []
           eq_refl eq_refl eq_refl ltac:(discriminate) ltac:(discriminate)).
Defined.

(** C7, as claimed, fails. A fresh manager logs in twice in succession and
    both logins succeed. Two keep-alive threads are then active, not one;
    once both have been scheduled through their first turn of the loop, each
    has sent its own probe and both are asleep until the next one. *)
Lemma two_logins_two_keep_alive_loops :
  let st0 := boot (init "AppKey" default_alive_refresh_sec) 0
               [login_accepted (PStr "SUCCESS") (PStr "abc123");
                login_accepted (PStr "SUCCESS") (PStr "def456");
                answer_alive; answer_alive] in
  let r1 := login rfc4648_decode_ascii "dXNlcg==" "cGFzcw==" st0 in
  let r2 := login rfc4648_decode_ascii "dXNlcg==" "cGFzcw==" r1.2 in
  let st3 := thread_step 1 (thread_step 0 (thread_step 1 (thread_step 0 r2.2))) in
  r1.1 = Return tt /\ r2.1 = Return tt /\
  threads r2.2 = [Started; Started] /\
  ~ (active_tasks r2.2 <= 1)%nat /\
  threads st3 = [Sleeping 7200; Sleeping 7200] /\
  length (sent_to keepAlive_url st3) = 2%nat /\
  active_tasks st3 = 2%nat.
Proof.
  vm_compute. repeat split; try reflexivity. intros H. lia.
Qed.

(** ** The JSON-RPC calls *)

Lemma aping_headers_lookup (b : Betfair) :
  aping_headers b !! "X-Application" = Some (PStr (app_key b)) /\
  aping_headers b !! "X-Authentication" = Some (session_token b) /\
  aping_headers b !! "content-type" = Some (PStr "application/json").
Proof. unfold aping_headers. by simplify_map_eq. Qed.

Lemma append_assoc (s1 s2 s3 : string) :
  (s1 +:+ s2) +:+ s3 = s1 +:+ s2 +:+ s3.
Proof.
  induction s1 as [|a s1 IH]; [reflexivity|].
  change (String a ((s1 +:+ s2) +:+ s3) = String a (s1 +:+ s2 +:+ s3)).
  by rewrite IH.
Qed.

Lemma invoke_sends (float : pyval -> outcome pyval) (c : rpc_call) (st : system) :
  sent (invoke float c st).2 =
    sent st ++ [(now st, mkRequest POST (rpc_url c)
                           (envelope (rpc_method c) (rpc_params c))
                           (aping_headers (self st)) None)].
Proof.
  destruct (invoke_state float c st) as (req & -> & Hreq).
  destruct (call_aping_frame req (rpc_url c) st) as (_ & _ & _ & -> & _).
  do 4 f_equal.
  unfold envelope.
  destruct c; cbn [rpc_method rpc_params]; rewrite ?append_assoc;
    vm_compute in Hreq |- *; by injection Hreq.
Qed.

(** *** The request bodies as JSON *)

Lemma append_cons (c : ascii) (s t : string) :
  String c s +:+ t = String c (s +:+ t).
Proof. reflexivity. Qed.

Lemma append_nil_r (s : string) : s +:+ EmptyString = s.
Proof.
  induction s as [|c s IH]; [reflexivity|]. by rewrite append_cons, IH.
Qed.

Lemma lex_run_app (m : lex_mode) (a b : string) :
  lex_run m (a +:+ b) =
    match lex_run m a with
    | Some (ts, m') =>
        match lex_run m' b with
        | Some (ts', m'') => Some (ts ++ ts', m'')
        | None => None
        end
    | None => None
    end.
Proof.
  revert m. induction a as [|c a IH]; intros m.
  - change (EmptyString +:+ b) with b. cbn. by destruct (lex_run m b) as [[ts m']|].
  - rewrite append_cons. cbn [lex_run].
    destruct (lex_step m c) as [[ts m']|]; [|done].
    rewrite IH. destruct (lex_run m' a) as [[ts1 m1]|]; [|done].
    destruct (lex_run m1 b) as [[ts2 m2]|]; [|done].
    by rewrite app_assoc.
Qed.

Lemma plain_char_step (acc : string) (c : ascii) :
  plain_char c = true ->
  lex_step (InStr acc) c = Some ([], InStr (snoc acc c)).
Proof.
  unfold plain_char, in_range. intros H.
  apply andb_true_iff in H as [H Hb]. apply andb_true_iff in H as [H Hq].
  apply andb_true_iff in H as [Hlo _].
  apply negb_true_iff in Hq, Hb. cbn. rewrite Hq, Hb.
  destruct (N.ltb_spec (N_of_ascii c) 32); [|done].
  apply N.leb_le in Hlo. lia.
Qed.

Lemma snoc_append (acc : string) (c : ascii) (s : string) :
  snoc acc c +:+ s = acc +:+ String c s.
Proof. unfold snoc. by rewrite append_assoc. Qed.

(** Plain text inside a string is taken over as it is. *)
Lemma lex_run_plain (acc s : string) :
  plain s = true ->
  lex_run (InStr acc) s = Some ([], InStr (acc +:+ s)).
Proof.
  revert acc. induction s as [|c s IH]; intros acc H.
  - cbn. by rewrite append_nil_r.
  - cbn in H. apply andb_true_iff in H as [Hc Hs].
    cbn [lex_run]. rewrite (plain_char_step acc c Hc), (IH _ Hs).
    by rewrite snoc_append.
Qed.

(** Plain text up to its closing quote is one string token. *)
Lemma lex_run_closed (acc s p : string) :
  closed_plain s = Some p ->
  lex_run (InStr acc) s = Some ([TString (acc +:+ p)], Idle).
Proof.
  revert acc p. induction s as [|c s IH]; intros acc p H; [done|].
  cbn in H. cbn [lex_run]. case_bool_decide as Hq.
  - subst c. case_bool_decide as He; [|done]. injection H as <-. subst s.
    cbn. rewrite bool_decide_true by done. by rewrite append_nil_r.
  - destruct (plain_char c) eqn:Hc; [|done].
    destruct (closed_plain s) as [p'|] eqn:Hs; [|done]. injection H as <-.
    rewrite (plain_char_step acc c Hc), (IH _ _ eq_refl).
    by rewrite snoc_append.
Qed.

Lemma lex_run_unquote (s p : string) :
  unquote s = Some p -> lex_run Idle s = Some ([TString p], Idle).
Proof.
  destruct s as [|c s]; [done|]. cbn [unquote]. case_bool_decide as Hq; [|done].
  subst c. intros H. cbn [lex_run]. change (lex_step Idle dquote) with
    (Some (@nil token, InStr EmptyString)). cbv beta iota.
  by rewrite (lex_run_closed EmptyString s p H).
Qed.

(** Quoted plain ids joined by commas are their string tokens with commas
    between them. *)
Lemma lex_run_ids (ids ps : list string) :
  unquote_all ids = Some ps ->
  lex_run Idle (join "," ids) = Some (id_tokens ps, Idle).
Proof.
  revert ps. induction ids as [|i ids IH]; intros ps H.
  - by injection H as <-.
  - cbn in H. destruct (unquote i) as [p|] eqn:Hi; [|done].
    destruct (unquote_all ids) as [ps'|] eqn:Hids; [|done]. injection H as <-.
    destruct ids as [|i' ids].
    + injection Hids as <-. cbn. by apply lex_run_unquote.
    + change (join "," (i :: i' :: ids)) with (i +:+ "," +:+ join "," (i' :: ids)).
      rewrite lex_run_app, (lex_run_unquote i p Hi). cbv beta iota.
      rewrite lex_run_app. change (lex_run Idle ",") with (Some ([TComma], Idle)).
      cbv beta iota. rewrite (IH ps' eq_refl).
      cbn in Hids. destruct (unquote i'); [|done].
      destruct (unquote_all ids); [|done]. by injection Hids as <-.
Qed.

Lemma prun_app (st : list frame * expect) (ts1 ts2 : list token) :
  prun st (ts1 ++ ts2) =
    match prun st ts1 with
    | Some st' => prun st' ts2
    | None => None
    end.
Proof.
  revert st. induction ts1 as [|t ts1 IH]; intros st; [done|].
  cbn. by destruct (pstep st t).
Qed.

(** String tokens with commas between them, in an open array, are its next
    elements. *)
Lemma prun_ids_more (stack : list frame) (acc : list jvalue) (p : string)
    (ps : list string) :
  prun (FArr acc :: stack, XValue) (id_tokens (p :: ps)) =
    Some (FArr (acc ++ (JString <$> (p :: ps))) :: stack, XAfter).
Proof.
  revert acc p. induction ps as [|p' ps IH]; intros acc p; [done|].
  change (id_tokens (p :: p' :: ps)) with
    (TString p :: TComma :: id_tokens (p' :: ps)).
  cbn [prun pstep scalar reduce]. rewrite IH.
  by rewrite <- app_assoc.
Qed.

(** An array of such ids, from the opening bracket to the closing one. *)
Lemma prun_ids (stack : list frame) (ps : list string) (rest : list token) :
  prun (FArr [] :: stack, XValueOrClose) (id_tokens ps ++ TRBracket :: rest) =
    match reduce stack (JArray (JString <$> ps)) with
    | Some st => prun st rest
    | None => None
    end.
Proof.
  destruct ps as [|p ps]; [done|].
  rewrite prun_app.
  assert (prun (FArr [] :: stack, XValueOrClose) (id_tokens (p :: ps)) =
          prun (FArr [] :: stack, XValue) (id_tokens (p :: ps))) as ->.
  { by destruct ps. }
  by rewrite prun_ids_more.
Qed.

(** Lexing a text piece by piece: a symbolic piece by the lemma for its
    kind, a literal piece by computation. *)
Ltac lex_literal :=
  match goal with
  | |- context [lex_run ?m ?a] =>
      let r := eval vm_compute in (lex_run m a) in
      change (lex_run m a) with r
  end;
  cbv beta iota.

Ltac lex_piece :=
  rewrite lex_run_app;
  first
    [ rewrite lex_run_plain by assumption; cbv beta iota
    | erewrite lex_run_ids by eassumption; cbv beta iota
    | erewrite lex_run_unquote by eassumption; cbv beta iota
    | lex_literal ].

Ltac lex_text :=
  unfold envelope; cbn [rpc_method rpc_params]; rewrite ?append_assoc;
  unfold json_parse, lex; repeat lex_piece; lex_literal.

(** Parsing the tokens of a body with an array of market ids: the literal
    tokens by computation, the ids by the lemma for them. *)
Ltac parse_ids :=
  cbn [lex_end]; rewrite app_nil_r, <- ?app_assoc; cbn [app];
  unfold parse_tokens; cbn [prun pstep scalar reduce];
  rewrite prun_ids; by vm_compute.

(** The text each method sends for safe arguments is a JSON-RPC envelope
    with the method's name and params. *)
Lemma rpc_body_is_envelope (c : rpc_call) (params : jvalue) :
  rpc_params_json c = Some params ->
  json_parse (envelope (rpc_method c) (rpc_params c)) =
    Some (envelope_json (rpc_method c) params).
Proof.
  destruct c as [| |i|ids|e m|m|ids]; cbn [rpc_params_json].
  - intros [= <-]. by vm_compute.
  - intros [= <-]. by vm_compute.
  - destruct (plain i) eqn:Hi; [|done]. intros [= <-].
    lex_text. by vm_compute.
  - destruct (unquote_all ids) as [ps|] eqn:Hids; [|done]. intros [= <-].
    lex_text. parse_ids.
  - destruct (plain e) eqn:He; [|done]. destruct (plain m) eqn:Hm; [|done].
    intros [= <-]. lex_text. by vm_compute.
  - destruct (unquote m) as [p|] eqn:Hm; [|done]. intros [= <-].
    lex_text. by vm_compute.
  - destruct (unquote_all ids) as [ps|] eqn:Hids; [|done]. intros [= <-].
    lex_text. parse_ids.
Qed.

(** C9, as the code has it. Every JSON-RPC method, whatever the state and
    whatever the network then does, hands exactly one request to
    requests.post: a POST to the accounts URL (get_gbp_funds) or the betting
    URL (all others), whose headers are X-Application with the application
    key of the instance, X-Authentication with its current session token and
    content-type application/json. Its body is the request text of the
    method with the arguments put in as they are, neither quoted nor
    escaped. For get_gbp_funds and get_football_competitions always, and for
    the other methods when their arguments are safe to interpolate (plain
    competition id, event id and market type code; market ids that are plain
    text in double quotes), that body is a JSON-RPC 2.0 envelope: a JSON
    object with the members jsonrpc (2.0), method (the method's name), params
    (the method's filter with the arguments as strings) and id (1). *)
Theorem rpc_request_envelope (float : pyval -> outcome pyval) (c : rpc_call)
    (st : system) :
  exists req : request,
    sent (invoke float c st).2 = sent st ++ [(now st, req)] /\
    verb req = POST /\
    url req = rpc_url c /\
    headers req !! "X-Application" = Some (PStr (app_key (self st))) /\
    headers req !! "X-Authentication" = Some (session_token (self st)) /\
    headers req !! "content-type" = Some (PStr "application/json") /\
    data req =
      jq "{'jsonrpc': '2.0', 'method': '" +:+ rpc_method c +:+ jq "', 'params': "
        +:+ rpc_params c +:+ jq ", 'id': 1}" /\
    forall params : jvalue,
      rpc_params_json c = Some params ->
      json_parse (data req) =
        Some (JObject [("jsonrpc", JString "2.0");
                       ("method", JString (rpc_method c));
                       ("params", params);
                       ("id", JNumber "1")]).
Proof.
  eexists. split; [apply invoke_sends|]. cbn [verb url headers data].
  destruct (aping_headers_lookup (self st)) as (? & ? & ?).
  do 6 (split; [done|]).
  intros params Hsafe. by apply rpc_body_is_envelope.
Qed.

(** get_market_data with two market ids in double quotes, as its docstring
    asks for. *)
Lemma rpc_request_envelope_witness :
  let c := GetMarketData [jq "'1.128349548'"; jq "'1.128349551'"] in
  let st := mkSystem (mkBetfair "AppKey" (PStr "SUCCESS") (PStr "abc123")
                        (Some 0%nat) 7200)
              [Sleeping 7200] 100 [] [] [] in
  exists req : request,
    sent (invoke float_of_number c st).2 = [(100, req)] /\
    verb req = POST /\
    url req = betting_url /\
    headers req !! "X-Application" = Some (PStr "AppKey") /\
    headers req !! "X-Authentication" = Some (PStr "abc123") /\
    headers req !! "content-type" = Some (PStr "application/json") /\
    json_parse (data req) =
      Some (JObject
        [("jsonrpc", JString "2.0");
         ("method", JString "SportsAPING/v1.0/listMarketBook");
         ("params",
          JObject
            [("marketIds", JArray [JString "1.128349548"; JString "1.128349551"]);
             ("priceProjection",
              JObject [("priceData", JArray [JString "EX_BEST_OFFERS"]);
                       ("virtualise", JString "true")]);
             ("orderProjection", JString "EXECUTABLE");
             ("matchProjection", JString "ROLLED_UP_BY_AVG_PRICE")]);
         ("id", JNumber "1")]).
Proof.
  intros c st.
  destruct (rpc_request_envelope float_of_number c st)
    as (req & Hsent & Hverb & Hurl & Hkey & Htoken & Htype & _ & Hjson).
  exists req. repeat split; try assumption.
  exact (Hjson _ eq_refl).
Defined.

(** C9, as claimed, fails. get_events_data called with the market id x, not
    put in double quotes by the caller, sends a body whose marketIds list is
    the bare text x: the body is not a JSON text at all, so no JSON-RPC
    envelope. The headers are as claimed. *)
Lemma unquoted_argument_breaks_envelope :
  let st := boot (init "AppKey" default_alive_refresh_sec) 0 [] in
  exists req : request,
    sent (invoke float_of_number (GetEventsData ["x"]) st).2 = [(0, req)] /\
    verb req = POST /\
    headers req !! "content-type" = Some (PStr "application/json") /\
    json_parse (data req) = None /\
    ~ (exists envelope : jvalue, json_parse (data req) = Some envelope).
Proof.
  intros st.
  exists (mkRequest POST (rpc_url (GetEventsData ["x"]))
            (envelope (rpc_method (GetEventsData ["x"]))
                      (rpc_params (GetEventsData ["x"])))
            (aping_headers (self st)) None).
  split; [by rewrite invoke_sends|].
  cbn [verb headers data]. split; [done|]. split; [by vm_compute|].
  assert (json_parse (envelope (rpc_method (GetEventsData ["x"]))
                               (rpc_params (GetEventsData ["x"]))) = None) as E
    by by vm_compute.
  split; [exact E|]. intros [v Hv]. rewrite E in Hv. discriminate Hv.
Qed.

(** ** A fresh manager *)

(** C10. A freshly constructed manager has the empty string as login_status
    and as session_token, no thread handle, and no keep-alive thread. Nothing
    in keep_alive or in a JSON-RPC method checks for a login: called on a
    fresh manager, each of them sends its request with the empty string as
    X-Authentication, and the outcome is the one the reply determines (for a
    healthy keep-alive answer, a normal return; for get_market_data, the
    parsed body). *)
Theorem fresh_manager_sends_empty_token (float : pyval -> outcome pyval)
    (key : string) (secs t0 : Z) (script : list http_reply) (c : rpc_call)
    (ids : list string) (v : pyval) :
  let b := init key secs in
  let st := boot b t0 script in
  login_status b = PStr "" /\
  session_token b = PStr "" /\
  alive_thread b = None /\
  active_tasks st = 0%nat /\
  (exists req : request,
     sent (keep_alive st).2 = [(t0, req)] /\ url req = keepAlive_url /\
     headers req !! "X-Authentication" = Some (PStr "")) /\
  (exists req : request,
     sent (invoke float c st).2 = [(t0, req)] /\ url req = rpc_url c /\
     headers req !! "X-Authentication" = Some (PStr "")) /\
  (keep_alive (boot b t0 (answer_alive :: script))).1 = Return tt /\
  (invoke float (GetMarketData ids)
     (boot b t0 (Answer (mkResponse 200 (Some v)) :: script))).1 = Return v.
Proof.
  cbn zeta. repeat split.
  - eexists. split; [by rewrite keep_alive_eq|]. split; [done|].
    unfold keep_alive_request. by simplify_map_eq.
  - eexists. split; [by rewrite invoke_sends|]. split; [done|].
    destruct (aping_headers_lookup (init key secs)) as (_ & H & _). exact H.
Qed.

(** * Further properties *)

(** ** login: failures and what they leave behind *)

(** What [login] does in general, by the way it ends. *)
Lemma login_frame (b64decode_ascii : string -> outcome string)
    (username password : string) (st : system) :
  let (o, st') := login b64decode_ascii username password st in
  app_key (self st') = app_key (self st) /\
  alive_refresh_sec (self st') = alive_refresh_sec (self st) /\
  now st' = now st /\
  match o with
  | Return _ =>
      threads st' = threads st ++ [Started] /\
      alive_thread (self st') = Some (length (threads st))
  | Raise _ =>
      threads st' = threads st /\
      alive_thread (self st') = alive_thread (self st) /\
      session_token (self st') = session_token (self st)
  end.
Proof.
  unfold login, bind, lift.
  destruct (b64decode_ascii username) as [u|e]; [|done].
  destruct (b64decode_ascii password) as [p|e]; [|done].
  unfold requests_post.
  destruct (replies st) as [|[r|] rest]; cbn; try done.
  destruct (status_code r =? 200); cbn; [|done].
  destruct (json r) as [v|e]; cbn; [|done].
  destruct (subscript v "loginStatus") as [s|e]; cbn; [|done].
  destruct (py_eq_str s "INVALID_USERNAME_OR_PASSWORD"); cbn; [done|].
  destruct (subscript v "sessionToken") as [tk|e]; cbn; [|done].
  by rewrite insert_at_end.
Qed.

(** X1. Credentials are decoded before anything else happens: when the
    username, or else the password, does not decode, login raises the
    decoder's exception and the whole system is as before. No request was
    sent, no reply consumed, nothing logged. *)
Theorem login_undecodable (b64decode_ascii : string -> outcome string)
    (username password : string) (e : exn) (st : system) :
  match b64decode_ascii username with
  | Raise e' => e' = e
  | Return _ => b64decode_ascii password = Raise e
  end ->
  login b64decode_ascii username password st = (Raise e, st).
Proof.
  unfold login, bind, lift.
  destruct (b64decode_ascii username) as [u|e']; [by intros ->|by intros ->].
Qed.

Lemma login_undecodable_witness :
  login rfc4648_decode_ascii "dXNlcg==" "not base64!"
    (boot (init "AppKey" 7200) 0 [login_accepted (PStr "SUCCESS") (PStr "abc123")])
  = (Raise BinasciiError,
     boot (init "AppKey" 7200) 0 [login_accepted (PStr "SUCCESS") (PStr "abc123")]).
Proof.
  exact (login_undecodable rfc4648_decode_ascii "dXNlcg==" "not base64!"
           BinasciiError
           (boot (init "AppKey" 7200) 0
              [login_accepted (PStr "SUCCESS") (PStr "abc123")])
           eq_refl).
Defined.

(** X2. A 200 answer that has a loginStatus other than
    INVALID_USERNAME_OR_PASSWORD but no sessionToken (what the endpoint sends
    for other refusals) leaves the manager half updated: login raises
    KeyError for sessionToken after login_status has already been overwritten
    with the refusal status, while session_token keeps its old value and no
    thread is created. *)
Theorem login_without_token (b64decode_ascii : string -> outcome string)
    (st : system) (username password u p : string)
    (d : gmap string pyval) (status : pyval) (rest : list http_reply) :
  b64decode_ascii username = Return u ->
  b64decode_ascii password = Return p ->
  replies st = Answer (mkResponse 200 (Some (PDict d))) :: rest ->
  d !! "loginStatus" = Some status ->
  status <> PStr "INVALID_USERNAME_OR_PASSWORD" ->
  d !! "sessionToken" = None ->
  let (o, st') := login b64decode_ascii username password st in
  o = Raise (KeyError (PStr "sessionToken")) /\
  login_status (self st') = status /\
  session_token (self st') = session_token (self st) /\
  alive_thread (self st') = alive_thread (self st) /\
  threads st' = threads st /\
  journal st' = journal st.
Proof.
  intros Hu Hp Hr Hs Hne Ht. apply py_eq_str_false in Hne.
  unfold login, bind, lift. rewrite Hu, Hp.
  rewrite (requests_post_answer _ _ _ _ _ _ _ Hr). cbn.
  rewrite Hs. cbn. rewrite Hne. cbn. by rewrite Ht.
Qed.

Lemma login_without_token_witness :
  let st := mkSystem (mkBetfair "AppKey" (PStr "SUCCESS") (PStr "abc123")
                        (Some 0%nat) 7200)
              [Sleeping 7200] 100
              [Answer (mkResponse 200 (Some (PDict
                 {[ "loginStatus" := PStr "CERT_AUTH_REQUIRED" ]})))] [] [] in
  let (o, st') := login rfc4648_decode_ascii "dXNlcg==" "cGFzcw==" st in
  o = Raise (KeyError (PStr "sessionToken")) /\
  login_status (self st') = PStr "CERT_AUTH_REQUIRED" /\
  session_token (self st') = PStr "abc123" /\
  alive_thread (self st') = Some 0%nat /\
  threads st' = [Sleeping 7200] /\
  journal st' = [].
Proof.
  exact (login_without_token rfc4648_decode_ascii
           (mkSystem (mkBetfair "AppKey" (PStr "SUCCESS") (PStr "abc123")
                        (Some 0%nat) 7200)
              [Sleeping 7200] 100
              [Answer (mkResponse 200 (Some (PDict
                 {[ "loginStatus" := PStr "CERT_AUTH_REQUIRED" ]})))] [] [])
           "dXNlcg==" "cGFzcw==" "user" "pass"
           {[ "loginStatus" := PStr "CERT_AUTH_REQUIRED" ]}
           (PStr "CERT_AUTH_REQUIRED") []
           eq_refl eq_refl eq_refl eq_refl ltac:(discriminate) eq_refl).
Defined.

(** X3. A 200 answer from which no loginStatus can be read (the body is not
    JSON: ValueError; it is JSON but not an object: TypeError; it is an object
    without that key: KeyError) makes login raise that exception with the
    instance, the threads and the log untouched. *)
Theorem login_unreadable_body (b64decode_ascii : string -> outcome string)
    (st : system) (username password u p : string)
    (r : response) (rest : list http_reply) (e : exn) :
  b64decode_ascii username = Return u ->
  b64decode_ascii password = Return p ->
  replies st = Answer r :: rest ->
  status_code r = 200 ->
  match json r with
  | Return v => subscript v "loginStatus"
  | Raise e' => Raise e'
  end = Raise e ->
  let (o, st') := login b64decode_ascii username password st in
  o = Raise e /\
  self st' = self st /\ threads st' = threads st /\ journal st' = journal st.
Proof.
  intros Hu Hp Hr Hc He.
  unfold login, bind, lift. rewrite Hu, Hp.
  rewrite (requests_post_answer _ _ _ _ _ _ _ Hr). cbn.
  rewrite Hc. cbn.
  destruct (json r) as [v|e']; cbn; [|by injection He as ->].
  by rewrite He.
Qed.

Lemma login_unreadable_body_witness :
  let st := boot (init "AppKey" 7200) 0
              [Answer (mkResponse 200 (Some (PList [PStr "SUCCESS"])))] in
  let (o, st') := login rfc4648_decode_ascii "dXNlcg==" "cGFzcw==" st in
  o = Raise TypeError /\
  self st' = init "AppKey" 7200 /\ threads st' = [] /\ journal st' = [].
Proof.
  exact (login_unreadable_body rfc4648_decode_ascii
           (boot (init "AppKey" 7200) 0
              [Answer (mkResponse 200 (Some (PList [PStr "SUCCESS"])))])
           "dXNlcg==" "cGFzcw==" "user" "pass"
           (mkResponse 200 (Some (PList [PStr "SUCCESS"]))) [] TypeError
           eq_refl eq_refl eq_refl eq_refl eq_refl).
Defined.

(** X4. When requests itself raises (no connection, or no reply at all),
    login lets that exception through: the request was attempted once, and
    the instance, the threads and the log are untouched. *)
Theorem login_transport_failure (b64decode_ascii : string -> outcome string)
    (st : system) (username password u p : string) :
  b64decode_ascii username = Return u ->
  b64decode_ascii password = Return p ->
  head (replies st) = Some Fails \/ replies st = [] ->
  let (o, st') := login b64decode_ascii username password st in
  o = Raise RequestException /\
  self st' = self st /\ threads st' = threads st /\ journal st' = journal st /\
  sent st' = sent st ++ [(now st, login_request u p)] /\
  replies st' = tail (replies st).
Proof.
  intros Hu Hp Hr.
  unfold login, bind, lift. rewrite Hu, Hp. unfold requests_post.
  destruct (replies st) as [|[r|] rest]; cbn in *; try done.
  by destruct Hr.
Qed.

Lemma login_transport_failure_witness :
  let st := boot (init "AppKey" 7200) 5
              [Fails; login_accepted (PStr "SUCCESS") (PStr "abc123")] in
  let (o, st') := login rfc4648_decode_ascii "dXNlcg==" "cGFzcw==" st in
  o = Raise RequestException /\
  self st' = init "AppKey" 7200 /\ threads st' = [] /\ journal st' = [] /\
  sent st' = [] ++ [(5, login_request "user" "pass")] /\
  replies st' = [login_accepted (PStr "SUCCESS") (PStr "abc123")].
Proof.
  exact (login_transport_failure rfc4648_decode_ascii
           (boot (init "AppKey" 7200) 5
              [Fails; login_accepted (PStr "SUCCESS") (PStr "abc123")])
           "dXNlcg==" "cGFzcw==" "user" "pass"
           eq_refl eq_refl (or_introl eq_refl)).
Defined.

(** X5. In every case, login starts a thread exactly when it returns. If it
    returns, one thread in state started has been appended after the existing
    ones and the handle refers to it. If it raises, for whatever reason, the
    threads, the handle and session_token are as before. Either way the
    application key, the refresh interval and the clock are unchanged. *)
Theorem login_thread_iff_returns (b64decode_ascii : string -> outcome string)
    (username password : string) (st : system) :
  let (o, st') := login b64decode_ascii username password st in
  app_key (self st') = app_key (self st) /\
  alive_refresh_sec (self st') = alive_refresh_sec (self st) /\
  now st' = now st /\
  match o with
  | Return _ =>
      threads st' = threads st ++ [Started] /\
      alive_thread (self st') = Some (length (threads st))
  | Raise _ =>
      threads st' = threads st /\
      alive_thread (self st') = alive_thread (self st) /\
      session_token (self st') = session_token (self st)
  end.
Proof. apply login_frame. Qed.

(** X6. The credentials reach the request body and nothing else. Two logins
    from the same state with different (decodable) credentials end the same
    way, with the same instance, threads, remaining replies and log; only the
    recorded request differs. *)
Theorem login_credentials_only_in_request
    (b64decode_ascii : string -> outcome string) (st : system)
    (username1 password1 username2 password2 u1 p1 u2 p2 : string) :
  b64decode_ascii username1 = Return u1 ->
  b64decode_ascii password1 = Return p1 ->
  b64decode_ascii username2 = Return u2 ->
  b64decode_ascii password2 = Return p2 ->
  let r1 := login b64decode_ascii username1 password1 st in
  let r2 := login b64decode_ascii username2 password2 st in
  r1.1 = r2.1 /\
  self r1.2 = self r2.2 /\
  threads r1.2 = threads r2.2 /\
  replies r1.2 = replies r2.2 /\
  journal r1.2 = journal r2.2 /\
  sent r1.2 = sent st ++ [(now st, login_request u1 p1)] /\
  sent r2.2 = sent st ++ [(now st, login_request u2 p2)].
Proof.
  intros H1 H2 H3 H4. cbn zeta.
  rewrite (login_sends _ st _ _ _ _ H1 H2), (login_sends _ st _ _ _ _ H3 H4).
  unfold login, bind, lift. rewrite H1, H2, H3, H4. unfold requests_post.
  destruct (replies st) as [|[r|] rest]; cbn; try done.
  destruct (status_code r =? 200); cbn; [|done].
  destruct (json r) as [v|e]; cbn; [|done].
  destruct (subscript v "loginStatus") as [s|e]; cbn; [|done].
  destruct (py_eq_str s "INVALID_USERNAME_OR_PASSWORD"); cbn; [done|].
  destruct (subscript v "sessionToken") as [tk|e]; cbn; done.
Qed.

Lemma login_credentials_only_in_request_witness :
  let st := boot (init "AppKey" 7200) 0
              [login_accepted (PStr "SUCCESS") (PStr "abc123")] in
  let r1 := login rfc4648_decode_ascii "dXNlcg==" "cGFzcw==" st in
  let r2 := login rfc4648_decode_ascii "dXNlcjE=" "d3Jvbmc=" st in
  r1.1 = r2.1 /\
  self r1.2 = self r2.2 /\
  threads r1.2 = threads r2.2 /\
  replies r1.2 = replies r2.2 /\
  journal r1.2 = journal r2.2 /\
  sent r1.2 = sent st ++ [(now st, login_request "user" "pass")] /\
  sent r2.2 = sent st ++ [(now st, login_request "user1" "wrong")].
Proof.
  exact (login_credentials_only_in_request rfc4648_decode_ascii
           (boot (init "AppKey" 7200) 0
              [login_accepted (PStr "SUCCESS") (PStr "abc123")])
           "dXNlcg==" "cGFzcw==" "dXNlcjE=" "d3Jvbmc="
           "user" "pass" "user1" "wrong" eq_refl eq_refl eq_refl eq_refl).
Defined.

(** X7. What login writes to the log when the endpoint answers. An accepted
    login logs, at level INFO, the login status, the session token in clear
    and the start of the keep-alive thread; a login refused for invalid
    credentials logs one ERROR record; a non-200 answer logs one CRITICAL
    record. Nothing else is logged. *)
Theorem login_journal (b64decode_ascii : string -> outcome string)
    (st : system) (username password u p : string)
    (r : response) (rest : list http_reply) :
  b64decode_ascii username = Return u ->
  b64decode_ascii password = Return p ->
  replies st = Answer r :: rest ->
  let st' := (login b64decode_ascii username password st).2 in
  (status_code r <> 200 ->
   journal st' = journal st ++ [mkLog CRITICAL "Login failed - unknown error" []]) /\
  (forall d : gmap string pyval,
     status_code r = 200 -> body r = Some (PDict d) ->
     d !! "loginStatus" = Some (PStr "INVALID_USERNAME_OR_PASSWORD") ->
     journal st' = journal st ++
       [mkLog ERROR "Login failed - invalid username or password" []]) /\
  (forall (d : gmap string pyval) (status token : pyval),
     status_code r = 200 -> body r = Some (PDict d) ->
     d !! "loginStatus" = Some status ->
     status <> PStr "INVALID_USERNAME_OR_PASSWORD" ->
     d !! "sessionToken" = Some token ->
     journal st' = journal st ++
       [mkLog INFO "Login status: {}" [status];
        mkLog INFO "Session token: {}" [token];
        mkLog INFO "Starting keep alive thread" []]).
Proof.
  intros Hu Hp Hr. cbn zeta. repeat split.
  - intros Hc. apply Z.eqb_neq in Hc.
    unfold login, bind, lift. rewrite Hu, Hp.
    rewrite (requests_post_answer _ _ _ _ _ _ _ Hr). cbn. by rewrite Hc.
  - intros d Hc Hb Hs.
    unfold login, bind, lift. rewrite Hu, Hp.
    rewrite (requests_post_answer _ _ _ _ _ _ _ Hr). cbn.
    unfold json. rewrite Hc, Hb. cbn. by rewrite Hs.
  - intros d status token Hc Hb Hs Hne Ht.
    destruct r as [c b]; cbn in Hc, Hb; subst c b.
    by rewrite (login_ok _ _ _ _ _ _ _ _ _ _ Hu Hp Hr Hs Hne Ht).
Qed.

Lemma login_journal_witness :
  let r := mkResponse 200 (Some (PDict
             {[ "loginStatus" := PStr "SUCCESS"; "sessionToken" := PStr "abc123" ]})) in
  let st := boot (init "AppKey" 7200) 0 [Answer r] in
  let st' := (login rfc4648_decode_ascii "dXNlcg==" "cGFzcw==" st).2 in
  (status_code r <> 200 ->
   journal st' = journal st ++ [mkLog CRITICAL "Login failed - unknown error" []]) /\
  (forall d : gmap string pyval,
     status_code r = 200 -> body r = Some (PDict d) ->
     d !! "loginStatus" = Some (PStr "INVALID_USERNAME_OR_PASSWORD") ->
     journal st' = journal st ++
       [mkLog ERROR "Login failed - invalid username or password" []]) /\
  (forall (d : gmap string pyval) (status token : pyval),
     status_code r = 200 -> body r = Some (PDict d) ->
     d !! "loginStatus" = Some status ->
     status <> PStr "INVALID_USERNAME_OR_PASSWORD" ->
     d !! "sessionToken" = Some token ->
     journal st' = journal st ++
       [mkLog INFO "Login status: {}" [status];
        mkLog INFO "Session token: {}" [token];
        mkLog INFO "Starting keep alive thread" []]).
Proof.
  exact (login_journal rfc4648_decode_ascii
           (boot (init "AppKey" 7200) 0
              [Answer (mkResponse 200 (Some (PDict
                 {[ "loginStatus" := PStr "SUCCESS";
                    "sessionToken" := PStr "abc123" ]})))])
           "dXNlcg==" "cGFzcw==" "user" "pass"
           (mkResponse 200 (Some (PDict
              {[ "loginStatus" := PStr "SUCCESS"; "sessionToken" := PStr "abc123" ]})))
           [] eq_refl eq_refl eq_refl).
Defined.

(** ** keep_alive: the request, and answers that cannot be read *)

(** X8. keep_alive makes one attempt and touches nothing else. In every
    state and whatever the network does, it hands exactly one request to
    requests.post: a POST to the keep-alive URL with an empty body, no client
    certificate, and the headers Accept, X-Application (the application key)
    and X-Authentication (the current session token); it consumes at most one
    reply and leaves the instance, the threads, the clock and the log as they
    were, whether it returns or raises. *)
Theorem keep_alive_one_request (st : system) :
  let st' := (keep_alive st).2 in
  exists req : request,
    sent st' = sent st ++ [(now st, req)] /\
    verb req = POST /\ url req = keepAlive_url /\ data req = "" /\
    cert req = None /\
    headers req !! "Accept" = Some (PStr "application/json") /\
    headers req !! "X-Application" = Some (PStr (app_key (self st))) /\
    headers req !! "X-Authentication" = Some (session_token (self st)) /\
    replies st' = tail (replies st) /\
    self st' = self st /\ threads st' = threads st /\ now st' = now st /\
    journal st' = journal st.
Proof.
  cbn zeta. rewrite keep_alive_eq. exists (keep_alive_request (self st)).
  unfold keep_alive_request; cbn. repeat split; by simplify_map_eq.
Qed.

(** X9. A 200 answer that keep_alive cannot read ends in the exception of
    the failing step, not in BetfairException: ValueError when the body is
    not JSON, TypeError when it is JSON but not an object, KeyError for status
    when that member is missing, and KeyError for error when the status is
    not FAIL and the error member is missing. A status FAIL is reported
    before the error member is looked at, so it needs no error member. *)
Theorem keep_alive_unreadable_answer (st : system) (r : response)
    (rest : list http_reply) :
  replies st = Answer r :: rest ->
  status_code r = 200 ->
  let o := (keep_alive st).1 in
  (body r = None -> o = Raise ValueError) /\
  (forall v, body r = Some v -> (forall d, v <> PDict d) -> o = Raise TypeError) /\
  (forall d, body r = Some (PDict d) -> d !! "status" = None ->
     o = Raise (KeyError (PStr "status"))) /\
  (forall d s, body r = Some (PDict d) -> d !! "status" = Some s ->
     s <> PStr "FAIL" -> d !! "error" = None ->
     o = Raise (KeyError (PStr "error"))) /\
  (forall d, body r = Some (PDict d) -> d !! "status" = Some (PStr "FAIL") ->
     o = Raise (BetfairException [PStr "keepAlive:status"; PStr "FAIL"])).
Proof.
  intros Hr Hc. cbn zeta. rewrite (keep_alive_answer st r rest Hr).
  unfold keep_alive_verdict, json. rewrite Hc. cbn. repeat split.
  - by intros ->.
  - intros v -> Hv. destruct v; try done. by destruct (Hv d).
  - intros d -> Hs. cbn. by rewrite Hs.
  - intros d s -> Hs Hne He. cbn. rewrite Hs.
    apply py_eq_str_false in Hne. rewrite Hne. by rewrite He.
  - intros d -> Hs. cbn. by rewrite Hs.
Qed.

Lemma keep_alive_unreadable_answer_witness :
  let r := mkResponse 200 (Some (PDict {[ "status" := PStr "SUCCESS" ]})) in
  let st := boot (init "AppKey" 7200) 0 [Answer r] in
  let o := (keep_alive st).1 in
  (body r = None -> o = Raise ValueError) /\
  (forall v, body r = Some v -> (forall d, v <> PDict d) -> o = Raise TypeError) /\
  (forall d, body r = Some (PDict d) -> d !! "status" = None ->
     o = Raise (KeyError (PStr "status"))) /\
  (forall d s, body r = Some (PDict d) -> d !! "status" = Some s ->
     s <> PStr "FAIL" -> d !! "error" = None ->
     o = Raise (KeyError (PStr "error"))) /\
  (forall d, body r = Some (PDict d) -> d !! "status" = Some (PStr "FAIL") ->
     o = Raise (BetfairException [PStr "keepAlive:status"; PStr "FAIL"])).
Proof.
  exact (keep_alive_unreadable_answer
           (boot (init "AppKey" 7200) 0
              [Answer (mkResponse 200 (Some (PDict {[ "status" := PStr "SUCCESS" ]})))])
           (mkResponse 200 (Some (PDict {[ "status" := PStr "SUCCESS" ]})))
           [] eq_refl eq_refl).
Defined.

(** ** How login and the later calls compose *)

(** X10. The token a successful login stores is the one the later calls
    present. After an accepted login, keep_alive and every JSON-RPC method
    send X-Authentication with the sessionToken of the login answer (and
    X-Application with the application key the manager was built with). *)
Theorem calls_present_login_token (b64decode_ascii : string -> outcome string)
    (float : pyval -> outcome pyval)
    (st : system) (username password u p : string)
    (status token : pyval) (rest : list http_reply) (c : rpc_call) :
  b64decode_ascii username = Return u ->
  b64decode_ascii password = Return p ->
  replies st = login_accepted status token :: rest ->
  status <> PStr "INVALID_USERNAME_OR_PASSWORD" ->
  let st1 := (login b64decode_ascii username password st).2 in
  (exists req : request,
     last (sent (keep_alive st1).2) = Some (now st, req) /\
     url req = keepAlive_url /\
     headers req !! "X-Authentication" = Some token /\
     headers req !! "X-Application" = Some (PStr (app_key (self st)))) /\
  (exists req : request,
     last (sent (invoke float c st1).2) = Some (now st, req) /\
     url req = rpc_url c /\
     headers req !! "X-Authentication" = Some token /\
     headers req !! "X-Application" = Some (PStr (app_key (self st)))).
Proof.
  intros Hu Hp Hr Hne. cbn zeta.
  rewrite (login_ok b64decode_ascii st username password u p
             {[ "loginStatus" := status; "sessionToken" := token ]}
             status token rest Hu Hp Hr eq_refl Hne eq_refl).
  cbn [snd]. split.
  - eexists. rewrite keep_alive_eq. cbn [snd sent]. rewrite last_snoc.
    split; [done|]. unfold keep_alive_request; cbn. by simplify_map_eq.
  - eexists. rewrite invoke_sends. rewrite last_snoc.
    split; [done|]. unfold aping_headers; cbn. by simplify_map_eq.
Qed.

Lemma calls_present_login_token_witness :
  let st := boot (init "AppKey" 7200) 0
              [login_accepted (PStr "SUCCESS") (PStr "abc123"); answer_alive] in
  let st1 := (login rfc4648_decode_ascii "dXNlcg==" "cGFzcw==" st).2 in
  (exists req : request,
     last (sent (keep_alive st1).2) = Some (now st, req) /\
     url req = keepAlive_url /\
     headers req !! "X-Authentication" = Some (PStr "abc123") /\
     headers req !! "X-Application" = Some (PStr (app_key (self st)))) /\
  (exists req : request,
     last (sent (invoke float_of_number GetGbpFunds st1).2) = Some (now st, req) /\
     url req = rpc_url GetGbpFunds /\
     headers req !! "X-Authentication" = Some (PStr "abc123") /\
     headers req !! "X-Application" = Some (PStr (app_key (self st)))).
Proof.
  exact (calls_present_login_token rfc4648_decode_ascii float_of_number
           (boot (init "AppKey" 7200) 0
              [login_accepted (PStr "SUCCESS") (PStr "abc123"); answer_alive])
           "dXNlcg==" "cGFzcw==" "user" "pass"
           (PStr "SUCCESS") (PStr "abc123") [answer_alive] GetGbpFunds
           eq_refl eq_refl eq_refl ltac:(discriminate)).
Defined.

(** ** The keep-alive thread: timing and life cycle *)

(** X11. Between two probes the thread sleeps for the refresh interval.
    After a probe with a healthy answer (and a non-negative interval) the
    thread sleeps until the time of the probe plus alive_refresh_sec; the
    instance is unchanged and one probe was sent. Scheduled before that time
    the thread does nothing; scheduled at or after it, the thread is back at
    the head of the loop, about to probe again. *)
Theorem sleep_between_probes (t : nat) (st : system) (reply : http_reply)
    (rest : list http_reply) :
  threads st !! t = Some LoopHead ->
  replies st = reply :: rest ->
  healthy reply = true ->
  0 <= alive_refresh_sec (self st) ->
  let st1 := thread_step t st in
  let wake := now st + alive_refresh_sec (self st) in
  threads st1 !! t = Some (Sleeping wake) /\
  self st1 = self st /\
  sent st1 = sent st ++ [(now st, keep_alive_request (self st))] /\
  (forall d, now st + Z.max 0 d < wake -> thread_step t (tick d st1) = tick d st1) /\
  (forall d, wake <= now st + Z.max 0 d ->
     threads (thread_step t (tick d st1)) !! t = Some LoopHead).
Proof. apply thread_step_probe_ok. Qed.

Lemma sleep_between_probes_witness :
  let st := mkSystem (mkBetfair "AppKey" (PStr "SUCCESS") (PStr "abc123")
                        (Some 0%nat) 7200)
              [LoopHead] 100 [answer_alive] [] [] in
  let st1 := thread_step 0 st in
  let wake := now st + alive_refresh_sec (self st) in
  threads st1 !! 0%nat = Some (Sleeping wake) /\
  self st1 = self st /\
  sent st1 = sent st ++ [(now st, keep_alive_request (self st))] /\
  (forall d, now st + Z.max 0 d < wake -> thread_step 0 (tick d st1) = tick d st1) /\
  (forall d, wake <= now st + Z.max 0 d ->
     threads (thread_step 0 (tick d st1)) !! 0%nat = Some LoopHead).
Proof.
  exact (sleep_between_probes 0
           (mkSystem (mkBetfair "AppKey" (PStr "SUCCESS") (PStr "abc123")
                        (Some 0%nat) 7200)
              [LoopHead] 100 [answer_alive] [] [])
           answer_alive [] eq_refl eq_refl eq_refl ltac:(discriminate)).
Defined.

(** The turn of the loop body on a healthy answer, in closed form. *)
Lemma thread_step_healthy_eq (t : nat) (st : system) (reply : http_reply)
    (rest : list http_reply) :
  threads st !! t = Some LoopHead ->
  replies st = reply :: rest ->
  healthy reply = true ->
  thread_step t st =
    set_thread t
      (if alive_refresh_sec (self st) <? 0 then Terminated ValueError
       else Sleeping (now st + alive_refresh_sec (self st)))
      (mkSystem (self st) (threads st) (now st) rest
         (sent st ++ [(now st, keep_alive_request (self st))])
         (journal st ++ [mkLog INFO "Keeping alive ..." []])).
Proof.
  intros Ht Hr Hh. unfold thread_step. rewrite Ht. unfold bind, log.
  pose proof (keep_alive_healthy st reply rest Hr Hh) as Ho.
  rewrite keep_alive_eq in Ho |- *. cbn in Ho. rewrite Ho. cbn.
  rewrite Hr. by destruct (_ <? 0).
Qed.

(** X12. A negative refresh interval kills the thread after its first
    probe: the probe is sent and answered, then time.sleep rejects the
    negative length with ValueError, which ends the loop. The thread never
    probes again. *)
Theorem negative_interval_ends_thread (t : nat) (st : system)
    (reply : http_reply) (rest : list http_reply) :
  threads st !! t = Some LoopHead ->
  replies st = reply :: rest ->
  healthy reply = true ->
  alive_refresh_sec (self st) < 0 ->
  let st1 := thread_step t st in
  threads st1 !! t = Some (Terminated ValueError) /\
  sent st1 = sent st ++ [(now st, keep_alive_request (self st))] /\
  forall d, thread_step t (tick d st1) = tick d st1.
Proof.
  intros Ht Hr Hh Hneg. cbn zeta.
  assert (t < length (threads st))%nat as Hlt by by eapply lookup_lt_Some.
  rewrite (thread_step_healthy_eq t st reply rest Ht Hr Hh).
  destruct (Z.ltb_spec (alive_refresh_sec (self st)) 0); [|lia].
  cbn. rewrite list_lookup_insert_eq by done. repeat split.
  intros d. apply (thread_step_dead t ValueError). cbn.
  by rewrite list_lookup_insert_eq.
Qed.

Lemma negative_interval_ends_thread_witness :
  let st := mkSystem (mkBetfair "AppKey" (PStr "SUCCESS") (PStr "abc123")
                        (Some 0%nat) (-1))
              [LoopHead] 100 [answer_alive; answer_alive] [] [] in
  let st1 := thread_step 0 st in
  threads st1 !! 0%nat = Some (Terminated ValueError) /\
  sent st1 = sent st ++ [(now st, keep_alive_request (self st))] /\
  forall d, thread_step 0 (tick d st1) = tick d st1.
Proof.
  exact (negative_interval_ends_thread 0
           (mkSystem (mkBetfair "AppKey" (PStr "SUCCESS") (PStr "abc123")
                        (Some 0%nat) (-1))
              [LoopHead] 100 [answer_alive; answer_alive] [] [])
           answer_alive [answer_alive] eq_refl eq_refl eq_refl eq_refl).
Defined.

(** One round on a healthy answer: back at the loop head, one probe later,
    [alive_refresh_sec] seconds later. *)
Lemma round_healthy (t : nat) (st : system) (reply : http_reply)
    (rest : list http_reply) :
  threads st !! t = Some LoopHead ->
  replies st = reply :: rest ->
  healthy reply = true ->
  0 <= alive_refresh_sec (self st) ->
  round t st =
    mkSystem (self st) (threads st) (now st + alive_refresh_sec (self st)) rest
      (sent st ++ [(now st, keep_alive_request (self st))])
      (journal st ++ [mkLog INFO "Keeping alive ..." []]).
Proof.
  intros Ht Hr Hh Hsecs. unfold round.
  assert (t < length (threads st))%nat as Hlt by by eapply lookup_lt_Some.
  rewrite (thread_step_healthy_eq t st reply rest Ht Hr Hh).
  destruct (Z.ltb_spec (alive_refresh_sec (self st)) 0); [lia|].
  unfold thread_step, tick, set_thread, with_threads; cbn.
  rewrite list_lookup_insert_eq by done.
  rewrite Z.max_r by done.
  destruct (Z.leb_spec (now st + alive_refresh_sec (self st))
                       (now st + alive_refresh_sec (self st))); [|lia].
  cbn. rewrite list_insert_insert_eq. by rewrite list_insert_id.
Qed.

(** X13. The probe schedule. Let a keep-alive thread be at the head of its
    loop at time T with a non-negative refresh interval S, and let the next N
    answers be healthy. When the thread is scheduled without delay, its N
    rounds send exactly N probes, at the times T, T+S, ..., T+(N-1)S, each
    with the headers of the unchanged instance; afterwards the clock is at
    T+N*S, the thread is at the loop head again, and the threads and the
    instance are as before. *)
Theorem probes_every_interval (t n : nat) (st : system)
    (script rest : list http_reply) :
  threads st !! t = Some LoopHead ->
  0 <= alive_refresh_sec (self st) ->
  replies st = script ++ rest ->
  length script = n ->
  forallb healthy script = true ->
  let st' := rounds t n st in
  sent st' = sent st ++
    map (fun i : nat => (now st + Z.of_nat i * alive_refresh_sec (self st),
                         keep_alive_request (self st))) (seq 0 n) /\
  now st' = now st + Z.of_nat n * alive_refresh_sec (self st) /\
  threads st' = threads st /\
  self st' = self st /\
  replies st' = rest.
Proof.
  intros Ht Hsecs Hr Hn Hh. cbn zeta.
  revert st n Ht Hsecs Hr Hn Hh.
  induction script as [|reply script IH]; intros st n Ht Hsecs Hr Hn Hh; subst n.
  { cbn. rewrite app_nil_r. repeat split; [lia|done]. }
  cbn in Hh. apply andb_true_iff in Hh as [Hh1 Hh2].
  cbn [length rounds].
  rewrite (round_healthy t st reply (script ++ rest) Ht Hr Hh1 Hsecs).
  match goal with |- context [rounds t _ ?s] => set (st1 := s) end.
  destruct (IH st1 (length script)) as (Es & En & Et & Eself & Er); try done.
  rewrite Es, En, Et, Eself, Er. cbn [self now threads sent st1].
  repeat split; [|lia].
  rewrite <- app_assoc. f_equal. cbn [seq map app]. f_equal.
  { f_equal. lia. }
  rewrite <- seq_shift, map_map. apply map_ext. intros i. f_equal. lia.
Qed.

Lemma probes_every_interval_witness :
  let st := mkSystem (mkBetfair "AppKey" (PStr "SUCCESS") (PStr "abc123")
                        (Some 0%nat) 7200)
              [LoopHead] 100 ([answer_alive; answer_alive; answer_alive] ++ [answer_fail])
              [] [] in
  let st' := rounds 0 3 st in
  sent st' = sent st ++
    map (fun i : nat => (now st + Z.of_nat i * alive_refresh_sec (self st),
                         keep_alive_request (self st))) (seq 0 3) /\
  now st' = now st + Z.of_nat 3 * alive_refresh_sec (self st) /\
  threads st' = threads st /\
  self st' = self st /\
  replies st' = [answer_fail].
Proof.
  exact (probes_every_interval 0 3
           (mkSystem (mkBetfair "AppKey" (PStr "SUCCESS") (PStr "abc123")
                        (Some 0%nat) 7200)
              [LoopHead] 100
              ([answer_alive; answer_alive; answer_alive] ++ [answer_fail]) [] [])
           [answer_alive; answer_alive; answer_alive] [answer_fail]
           eq_refl ltac:(discriminate) eq_refl eq_refl eq_refl).
Defined.

(** ** Invariants of a manager's life *)

Lemma thread_step_threads (t : nat) (st : system) :
  length (threads (thread_step t st)) = length (threads st) /\
  (Forall (fun s => s <> Unstarted) (threads st) ->
   Forall (fun s => s <> Unstarted) (threads (thread_step t st))) /\
  now (thread_step t st) = now st.
Proof.
  unfold thread_step.
  destruct (threads st !! t) as [[| | |wake|e]|]; try done.
  - cbn. rewrite length_insert. repeat split. intros H.
    by apply Forall_insert.
  - unfold bind, log. rewrite keep_alive_eq.
    destruct (match replies st with
              | Answer r :: _ => keep_alive_verdict r
              | _ => Raise RequestException
              end) as [[]|e]; cbn.
    + destruct (_ <? 0); cbn; rewrite length_insert; repeat split;
        intros H; by apply Forall_insert.
    + rewrite length_insert. repeat split. intros H. by apply Forall_insert.
  - destruct (wake <=? now st); [|done]. cbn. rewrite length_insert.
    repeat split. intros H. by apply Forall_insert.
Qed.

Section Invariants.

Variable b64decode_ascii : string -> outcome string.
Variable float : pyval -> outcome pyval.

(** Every action preserves the agreement of handle and threads, the
    settings of the instance, and lets neither the clock run backwards nor a
    thread disappear; only a login can add a thread, and only one. *)
Lemma exec_invariant (a : action) (st : system) :
  handle_ok st ->
  let st' := exec b64decode_ascii float a st in
  handle_ok st' /\
  app_key (self st') = app_key (self st) /\
  alive_refresh_sec (self st') = alive_refresh_sec (self st) /\
  now st <= now st' /\
  (length (threads st) <= length (threads st') <=
     length (threads st) + (if is_login a then 1 else 0))%nat.
Proof.
  intros [Hh Hs]. destruct a as [u p| |c|t|d]; cbn [exec is_login]; cbn zeta.
  - pose proof (login_frame b64decode_ascii u p st) as F.
    destruct (login b64decode_ascii u p st) as [[[]|e] st']; cbn [snd];
      destruct F as (-> & -> & -> & F).
    + destruct F as (Ht & Ha). unfold handle_ok. rewrite Ht, Ha, length_app.
      cbn. repeat split; try lia. apply Forall_app. split; [done|].
      by apply Forall_singleton.
    + destruct F as (Ht & Ha & _). unfold handle_ok. rewrite Ht, Ha.
      repeat split; try done; lia.
  - rewrite keep_alive_eq. cbn. repeat split; try done; lia.
  - destruct (invoke_frame float c st) as (Es & Et & En).
    unfold handle_ok. rewrite Es, Et, En. repeat split; try done; lia.
  - destruct (thread_step_threads t st) as (El & Ef & En).
    unfold handle_ok. rewrite (thread_step_self t st), En, El.
    repeat split; try lia; [|by apply Ef].
    destruct (alive_thread (self st)) as [i|]; [done|].
    apply nil_length_inv. by rewrite El, Hh.
  - cbn. repeat split; try done; lia.
Qed.

(** X14. Whatever is done with a manager after its construction (logins,
    probes, JSON-RPC calls, steps of its threads, waiting, in any order and
    with any replies), its application key and refresh interval stay the
    ones given to the constructor; the thread handle is absent exactly while
    no thread exists and otherwise refers to the thread created last; every
    thread that exists has been started; the number of threads, and so the
    number of running keep-alive loops, never exceeds the number of login
    calls made; and the clock never runs backwards. *)
Theorem manager_invariant (key : string) (secs t0 : Z)
    (script : list http_reply) (l : list action) :
  let st := run b64decode_ascii float l (boot (init key secs) t0 script) in
  app_key (self st) = key /\
  alive_refresh_sec (self st) = secs /\
  handle_ok st /\
  (active_tasks st <= length (threads st) <= logins l)%nat /\
  t0 <= now st.
Proof.
  cbn zeta.
  assert (forall (l : list action) (st : system),
            handle_ok st ->
            let st' := run b64decode_ascii float l st in
            handle_ok st' /\
            app_key (self st') = app_key (self st) /\
            alive_refresh_sec (self st') = alive_refresh_sec (self st) /\
            now st <= now st' /\
            (length (threads st') <= length (threads st) + logins l)%nat) as G.
  { clear l. induction l as [|a l IH]; intros st H; cbn zeta.
    - split; [exact H|]. cbn. repeat split; lia.
    - destruct (exec_invariant a st H) as (H1 & Hk & Hr & Hn & Hl).
      destruct (IH _ H1) as (H2 & Hk2 & Hr2 & Hn2 & Hl2).
      change (run b64decode_ascii float (a :: l) st)
        with (run b64decode_ascii float l (exec b64decode_ascii float a st)).
      rewrite Hk2, Hr2, Hk, Hr. cbn [logins].
      split; [exact H2|]. repeat split; lia. }
  destruct (G l (boot (init key secs) t0 script)) as (H & Hk & Hr & Hn & Hl).
  { split; [done|]. apply Forall_nil_2. }
  cbn in Hk, Hr, Hn, Hl. split; [done|]. split; [done|]. split; [exact H|].
  split; [|done]. split; [|lia]. unfold active_tasks. apply length_filter.
Qed.

End Invariants.

(** ** The JSON-RPC calls: what comes back *)

(** [__call_aping] in closed form. *)
Lemma call_aping_eq (req u : string) (st : system) :
  call_aping req u st =
    (match replies st with
     | Answer r :: _ => json r
     | _ => Raise RequestException
     end,
     mkSystem (self st) (threads st) (now st) (tail (replies st))
       (sent st ++ [(now st, mkRequest POST u req (aping_headers (self st)) None)])
       (journal st)).
Proof.
  unfold call_aping, bind, lift, get_self, requests_post, aping_headers.
  destruct (replies st) as [|[r|] rest]; cbn; done.
Qed.

Lemma bind_call_aping {B} (req u : string) (k : pyval -> M B) (st : system)
    (r : response) (rest : list http_reply) :
  replies st = Answer r :: rest ->
  bind (call_aping req u) k st =
    let st1 := mkSystem (self st) (threads st) (now st) rest
                 (sent st ++ [(now st, mkRequest POST u req
                                         (aping_headers (self st)) None)])
                 (journal st) in
    match json r with
    | Return v => k v st1
    | Raise e => (Raise e, st1)
    end.
Proof. intros Hr. unfold bind. rewrite call_aping_eq, Hr. done. Qed.

(** X15. The JSON-RPC methods only read the session. In every state and
    whatever the reply, a call leaves the instance, the threads, the clock
    and the log as they were and consumes at most one reply (there is one
    attempt, no retry), whether it returns or raises. *)
Theorem rpc_read_only (float : pyval -> outcome pyval) (c : rpc_call)
    (st : system) :
  let st' := (invoke float c st).2 in
  self st' = self st /\ threads st' = threads st /\ now st' = now st /\
  journal st' = journal st /\ replies st' = tail (replies st) /\
  length (sent st') = S (length (sent st)).
Proof.
  cbn zeta. destruct (invoke_state float c st) as (req & -> & _).
  rewrite call_aping_eq. cbn. repeat split. rewrite length_app. cbn. lia.
Qed.

(** X16. get_events_data, get_football_game_description and
    get_market_data hand back whatever JSON the endpoint answered, without
    looking at the HTTP status or at the content (an error object or a 500
    page with a JSON body is returned like a result); a body that is not JSON
    raises ValueError. *)
Theorem rpc_pass_through (float : pyval -> outcome pyval) (c : rpc_call)
    (st : system) (r : response) (rest : list http_reply) :
  unwraps_result c = false ->
  replies st = Answer r :: rest ->
  (invoke float c st).1 =
    match body r with
    | Some v => Return v
    | None => Raise ValueError
    end.
Proof.
  intros Hc Hr. fold (json r).
  destruct c; try discriminate Hc; cbn [invoke].
  - unfold get_events_data. formatted req.
    unfold call_aping, bind, lift, get_self, requests_post. by rewrite Hr.
  - unfold get_football_game_description. formatted req.
    unfold call_aping, bind, lift, get_self, requests_post. by rewrite Hr.
  - unfold get_market_data. formatted req.
    unfold call_aping, bind, lift, get_self, requests_post. by rewrite Hr.
Qed.

Lemma rpc_pass_through_witness :
  let r := mkResponse 500 (Some (PDict {[ "error" := PStr "DSC-0018" ]})) in
  (invoke float_of_number (GetMarketData ["1.23"; "1.24"])
     (boot (init "AppKey" 7200) 0 [Answer r])).1 =
    match body r with
    | Some v => Return v
    | None => Raise ValueError
    end.
Proof.
  exact (rpc_pass_through float_of_number (GetMarketData ["1.23"; "1.24"])
           (boot (init "AppKey" 7200) 0
              [Answer (mkResponse 500 (Some (PDict {[ "error" := PStr "DSC-0018" ]})))])
           (mkResponse 500 (Some (PDict {[ "error" := PStr "DSC-0018" ]})))
           [] eq_refl eq_refl).
Defined.

(** X17. get_gbp_funds, get_football_competitions, get_football_games and
    get_market_catalogue take the result member out of the answer. When the
    answer is a JSON object without result (a JSON-RPC error), they raise
    KeyError for result, whatever the HTTP status. *)
Theorem rpc_error_reply (float : pyval -> outcome pyval) (c : rpc_call)
    (st : system) (r : response) (rest : list http_reply)
    (d : gmap string pyval) :
  unwraps_result c = true ->
  replies st = Answer r :: rest ->
  body r = Some (PDict d) ->
  d !! "result" = None ->
  (invoke float c st).1 = Raise (KeyError (PStr "result")).
Proof.
  intros Hc Hr Hb Hd.
  destruct c; try discriminate Hc; cbn [invoke].
  - unfold get_gbp_funds. rewrite (bind_call_aping _ _ _ st r rest Hr).
    unfold json. rewrite Hb. cbn. unfold bind, lift. cbn. by rewrite Hd.
  - unfold get_football_competitions. rewrite (bind_call_aping _ _ _ st r rest Hr).
    unfold json. rewrite Hb. cbn. unfold bind, lift. cbn. by rewrite Hd.
  - unfold get_football_games. formatted req.
    rewrite (bind_call_aping _ _ _ st r rest Hr).
    unfold json. rewrite Hb. cbn. unfold bind, lift. cbn. by rewrite Hd.
  - unfold get_market_catalogue. formatted req.
    rewrite (bind_call_aping _ _ _ st r rest Hr).
    unfold json. rewrite Hb. cbn. unfold bind, lift. cbn. by rewrite Hd.
Qed.

Lemma rpc_error_reply_witness :
  (invoke float_of_number GetGbpFunds
     (boot (init "AppKey" 7200) 0
        [Answer (mkResponse 200 (Some (PDict
           {[ "error" := PStr "INVALID_SESSION_INFORMATION" ]})))])).1
  = Raise (KeyError (PStr "result")).
Proof.
  exact (rpc_error_reply float_of_number GetGbpFunds
           (boot (init "AppKey" 7200) 0
              [Answer (mkResponse 200 (Some (PDict
                 {[ "error" := PStr "INVALID_SESSION_INFORMATION" ]})))])
           (mkResponse 200 (Some (PDict
              {[ "error" := PStr "INVALID_SESSION_INFORMATION" ]})))
           [] {[ "error" := PStr "INVALID_SESSION_INFORMATION" ]}
           eq_refl eq_refl eq_refl eq_refl).
Defined.

(** The comprehension over items that all pass and all have the member. *)
Lemma comprehension_all (f : pyval -> outcome pyval) (items xs : list pyval) :
  Forall2 (fun i x => f i = Return x) items xs ->
  comprehension f (fun _ => Return true) items = Return xs.
Proof.
  induction 1 as [|i x items xs Hf _ IH]; [done|].
  cbn. by rewrite Hf, IH.
Qed.

(** X18. get_football_competitions returns the competition member of every
    entry of result, in the order of the answer: when result is a list whose
    entries all have a competition member, the call returns the list of
    those members, one per entry. *)
Theorem get_football_competitions_maps (st : system) (r : response)
    (rest : list http_reply) (d : gmap string pyval)
    (items competitions : list pyval) :
  replies st = Answer r :: rest ->
  body r = Some (PDict d) ->
  d !! "result" = Some (PList items) ->
  Forall2 (fun i c => subscript i "competition" = Return c) items competitions ->
  (get_football_competitions st).1 = Return (PList competitions) /\
  length competitions = length items.
Proof.
  intros Hr Hb Hd Hc. split; [|symmetry; by eapply Forall2_length].
  unfold get_football_competitions. rewrite (bind_call_aping _ _ _ st r rest Hr).
  unfold json. rewrite Hb. cbn. unfold bind, lift, ret. cbn. rewrite Hd. cbn.
  by rewrite (comprehension_all _ _ _ Hc).
Qed.

Lemma get_football_competitions_maps_witness :
  let c1 := PDict {[ "id" := PStr "10932509"; "name" := PStr "English Premier League" ]} in
  let c2 := PDict {[ "id" := PStr "59"; "name" := PStr "German Bundesliga" ]} in
  let items := [PDict {[ "competition" := c1; "marketCount" := PInt 120 ]};
                PDict {[ "competition" := c2; "marketCount" := PInt 90 ]}] in
  let st := boot (init "AppKey" 7200) 0
              [Answer (mkResponse 200 (Some (PDict {[ "result" := PList items ]})))] in
  (get_football_competitions st).1 = Return (PList [c1; c2]) /\
  length [c1; c2] = length items.
Proof.
  intros c1 c2 items st.
  exact (get_football_competitions_maps st
           (mkResponse 200 (Some (PDict {[ "result" := PList items ]}))) []
           {[ "result" := PList items ]} items [c1; c2]
           eq_refl eq_refl eq_refl
           ltac:(repeat constructor)).
Defined.

(** X19. get_football_games keeps exactly the home-versus-away events.
    When result is a list whose entries each have an event member with a
    string name, the call returns the events whose name contains the text
    space v space, in the order of the answer, and drops all the others
    (outrights and the like). *)
Theorem get_football_games_filters (football_competition_id : string)
    (st : system) (r : response) (rest : list http_reply)
    (d : gmap string pyval) (items : list pyval)
    (events : list (pyval * string)) :
  replies st = Answer r :: rest ->
  body r = Some (PDict d) ->
  d !! "result" = Some (PList items) ->
  Forall2 (fun i (en : pyval * string) =>
             subscript i "event" = Return en.1 /\
             subscript en.1 "name" = Return (PStr en.2)) items events ->
  (get_football_games football_competition_id st).1 =
    Return (PList (filter (fun en => is_substring " v " en.2 = true) events).*1).
Proof.
  intros Hr Hb Hd Hev.
  unfold get_football_games. formatted req.
  rewrite (bind_call_aping _ _ _ st r rest Hr).
  unfold json. rewrite Hb. cbn. unfold bind, lift, ret. cbn. rewrite Hd. cbn.
  match goal with |- context [comprehension ?f ?c items] =>
    assert (comprehension f c items =
            Return (filter (fun en => is_substring " v " en.2 = true) events).*1)
      as ->; [|done]
  end.
  clear Hd. induction Hev as [|i [ev n] items events [Hi Hn] _ IH]; [done|].
  cbn in Hi, Hn. cbn [comprehension]. rewrite Hi, Hn. cbn [py_contains].
  rewrite filter_cons. cbn [snd].
  destruct (is_substring " v " n) eqn:Hsub.
  - rewrite decide_True by done. rewrite IH. done.
  - rewrite decide_False by done. by rewrite IH.
Qed.

Lemma get_football_games_filters_witness :
  let e1 := PDict {[ "id" := PStr "28180290"; "name" := PStr "Arsenal v Chelsea" ]} in
  let e2 := PDict {[ "id" := PStr "28180999"; "name" := PStr "Premier League Winner" ]} in
  let e3 := PDict {[ "id" := PStr "28180291"; "name" := PStr "Everton v Stoke" ]} in
  let items := [PDict {[ "event" := e1 ]}; PDict {[ "event" := e2 ]};
                PDict {[ "event" := e3 ]}] in
  let events := [(e1, "Arsenal v Chelsea"); (e2, "Premier League Winner");
                 (e3, "Everton v Stoke")] in
  let st := boot (init "AppKey" 7200) 0
              [Answer (mkResponse 200 (Some (PDict {[ "result" := PList items ]})))] in
  (get_football_games "10932509" st).1 = Return (PList [e1; e3]).
Proof.
  intros e1 e2 e3 items events st.
  exact (get_football_games_filters "10932509" st
           (mkResponse 200 (Some (PDict {[ "result" := PList items ]}))) []
           {[ "result" := PList items ]} items events
           eq_refl eq_refl eq_refl ltac:(repeat constructor)).
Defined.

(** X20. One entry of result without an event member fails the whole
    get_football_games call: when the entries before it are well formed,
    the call raises KeyError for event and returns no partial list. *)
Theorem get_football_games_all_or_nothing (football_competition_id : string)
    (st : system) (r : response) (rest : list http_reply)
    (d d' : gmap string pyval) (good after : list pyval)
    (events : list (pyval * string)) :
  replies st = Answer r :: rest ->
  body r = Some (PDict d) ->
  d !! "result" = Some (PList (good ++ PDict d' :: after)) ->
  Forall2 (fun i (en : pyval * string) =>
             subscript i "event" = Return en.1 /\
             subscript en.1 "name" = Return (PStr en.2)) good events ->
  d' !! "event" = None ->
  (get_football_games football_competition_id st).1 =
    Raise (KeyError (PStr "event")).
Proof.
  intros Hr Hb Hd Hev Hbad.
  unfold get_football_games. formatted req.
  rewrite (bind_call_aping _ _ _ st r rest Hr).
  unfold json. rewrite Hb. cbn. unfold bind, lift, ret. cbn. rewrite Hd. cbn.
  match goal with |- context [comprehension ?f ?c (good ++ _)] =>
    assert (comprehension f c (good ++ PDict d' :: after) =
            Raise (KeyError (PStr "event"))) as ->; [|done]
  end.
  clear Hd. induction Hev as [|i [ev n] good events [Hi Hn] _ IH].
  - cbn. by rewrite Hbad.
  - cbn in Hi, Hn. cbn [app comprehension]. rewrite Hi, Hn. cbn [py_contains].
    rewrite IH. by destruct (is_substring " v " n).
Qed.

Lemma get_football_games_all_or_nothing_witness :
  let e1 := PDict {[ "id" := PStr "28180290"; "name" := PStr "Arsenal v Chelsea" ]} in
  let items := [PDict {[ "event" := e1 ]}] ++
               PDict {[ "marketCount" := PInt 3 ]} :: [] in
  let st := boot (init "AppKey" 7200) 0
              [Answer (mkResponse 200 (Some (PDict {[ "result" := PList items ]})))] in
  (get_football_games "10932509" st).1 = Raise (KeyError (PStr "event")).
Proof.
  intros e1 items st.
  exact (get_football_games_all_or_nothing "10932509" st
           (mkResponse 200 (Some (PDict {[ "result" := PList items ]}))) []
           {[ "result" := PList items ]} {[ "marketCount" := PInt 3 ]}
           [PDict {[ "event" := e1 ]}] [] [(e1, "Arsenal v Chelsea")]
           eq_refl eq_refl eq_refl ltac:(repeat constructor) eq_refl).
Defined.

(** X21. get_market_catalogue returns the first entry of result and
    ignores the rest; an empty result list (no such market) raises
    IndexError. *)
Theorem get_market_catalogue_first (event_id market_type_code : string)
    (st : system) (r : response) (rest : list http_reply)
    (d : gmap string pyval) (entries : list pyval) :
  replies st = Answer r :: rest ->
  body r = Some (PDict d) ->
  d !! "result" = Some (PList entries) ->
  (get_market_catalogue event_id market_type_code st).1 =
    match entries with
    | first :: _ => Return first
    | [] => Raise IndexError
    end.
Proof.
  intros Hr Hb Hd.
  unfold get_market_catalogue. formatted req.
  rewrite (bind_call_aping _ _ _ st r rest Hr).
  unfold json. rewrite Hb. cbn. unfold bind, lift. cbn. rewrite Hd. cbn.
  by destruct entries.
Qed.

Lemma get_market_catalogue_first_witness :
  let st := boot (init "AppKey" 7200) 0
              [Answer (mkResponse 200 (Some (PDict {[ "result" := PList [] ]})))] in
  (get_market_catalogue "28180290" "MATCH_ODDS" st).1 = Raise IndexError.
Proof.
  exact (get_market_catalogue_first "28180290" "MATCH_ODDS"
           (boot (init "AppKey" 7200) 0
              [Answer (mkResponse 200 (Some (PDict {[ "result" := PList [] ]})))])
           (mkResponse 200 (Some (PDict {[ "result" := PList [] ]}))) []
           {[ "result" := PList [] ]} [] eq_refl eq_refl eq_refl).
Defined.

(** X22. get_gbp_funds returns float applied to the availableToBetBalance
    member of result, so it raises what float raises on that value; when
    result is an object without that member it raises KeyError for it. *)
Theorem get_gbp_funds_balance (float : pyval -> outcome pyval)
    (st : system) (r : response) (rest : list http_reply)
    (d result : gmap string pyval) :
  replies st = Answer r :: rest ->
  body r = Some (PDict d) ->
  d !! "result" = Some (PDict result) ->
  (get_gbp_funds float st).1 =
    match result !! "availableToBetBalance" with
    | Some balance => float balance
    | None => Raise (KeyError (PStr "availableToBetBalance"))
    end.
Proof.
  intros Hr Hb Hd.
  unfold get_gbp_funds. rewrite (bind_call_aping _ _ _ st r rest Hr).
  unfold json. rewrite Hb. cbn. unfold bind, lift. cbn. rewrite Hd. cbn.
  by destruct (result !! "availableToBetBalance").
Qed.

Lemma get_gbp_funds_balance_witness :
  let result : gmap string pyval :=
    {[ "availableToBetBalance" := PInt 250; "exposure" := PInt 0 ]} in
  let st := boot (init "AppKey" 7200) 0
              [Answer (mkResponse 200 (Some (PDict {[ "result" := PDict result ]})))] in
  (get_gbp_funds float_of_number st).1 =
    match result !! "availableToBetBalance" with
    | Some balance => float_of_number balance
    | None => Raise (KeyError (PStr "availableToBetBalance"))
    end.
Proof.
  intros result st.
  exact (get_gbp_funds_balance float_of_number st
           (mkResponse 200 (Some (PDict {[ "result" := PDict result ]}))) []
           {[ "result" := PDict result ]} result eq_refl eq_refl eq_refl).
Defined.

(** ** Threads of earlier logins *)

(** A thread at the head of its loop sends its probe with the instance as it
    is at that moment, whatever the answer turns out to be. *)
Lemma thread_step_probe_sent (t : nat) (st : system) :
  threads st !! t = Some LoopHead ->
  sent (thread_step t st) = sent st ++ [(now st, keep_alive_request (self st))].
Proof.
  intros Ht. unfold thread_step. rewrite Ht. unfold bind, log.
  rewrite keep_alive_eq.
  destruct (match replies st with
            | Answer r :: _ => keep_alive_verdict r
            | _ => Raise RequestException
            end) as [[]|e]; cbn; [|done].
  by destruct (_ <? 0).
Qed.

(** X23. The keep-alive thread of an earlier login goes on probing with the
    token of the latest login. A login that succeeds while an older thread is
    at the head of its loop leaves that thread where it is, and the next
    probe of the older thread carries the new session token. *)
Theorem old_thread_presents_new_token (b64decode_ascii : string -> outcome string)
    (st : system) (t : nat) (username password u p : string)
    (status token : pyval) (rest : list http_reply) :
  b64decode_ascii username = Return u ->
  b64decode_ascii password = Return p ->
  threads st !! t = Some LoopHead ->
  replies st = login_accepted status token :: rest ->
  status <> PStr "INVALID_USERNAME_OR_PASSWORD" ->
  let st1 := (login b64decode_ascii username password st).2 in
  let st2 := thread_step t st1 in
  threads st1 !! t = Some LoopHead /\
  exists req : request,
    last (sent st2) = Some (now st, req) /\
    url req = keepAlive_url /\
    headers req !! "X-Authentication" = Some token.
Proof.
  intros Hu Hp Ht Hr Hne. cbn zeta.
  rewrite (login_ok b64decode_ascii st username password u p
             {[ "loginStatus" := status; "sessionToken" := token ]}
             status token rest Hu Hp Hr eq_refl Hne eq_refl).
  cbn [snd].
  assert (forall s, threads s = threads st ++ [Started] ->
                    threads s !! t = Some LoopHead) as Hl.
  { intros s ->. by apply lookup_app_l_Some. }
  split; [by apply Hl|].
  rewrite thread_step_probe_sent by by apply Hl.
  eexists. rewrite last_snoc. split; [done|].
  unfold keep_alive_request; cbn. by simplify_map_eq.
Qed.

Lemma old_thread_presents_new_token_witness :
  let st := mkSystem (mkBetfair "AppKey" (PStr "SUCCESS") (PStr "abc123")
                        (Some 0%nat) 7200)
              [LoopHead] 100
              [login_accepted (PStr "SUCCESS") (PStr "def456"); answer_alive] [] [] in
  let st1 := (login rfc4648_decode_ascii "dXNlcg==" "cGFzcw==" st).2 in
  let st2 := thread_step 0 st1 in
  threads st1 !! 0%nat = Some LoopHead /\
  exists req : request,
    last (sent st2) = Some (now st, req) /\
    url req = keepAlive_url /\
    headers req !! "X-Authentication" = Some (PStr "def456").
Proof.
  exact (old_thread_presents_new_token rfc4648_decode_ascii
           (mkSystem (mkBetfair "AppKey" (PStr "SUCCESS") (PStr "abc123")
                        (Some 0%nat) 7200)
              [LoopHead] 100
              [login_accepted (PStr "SUCCESS") (PStr "def456"); answer_alive] [] [])
           0%nat "dXNlcg==" "cGFzcw==" "user" "pass"
           (PStr "SUCCESS") (PStr "def456") [answer_alive]
           eq_refl eq_refl eq_refl eq_refl ltac:(discriminate)).
Defined.
